(** * TinySTL [basic_string]: small-buffer storage, growth engine, cursors

    A shallow embedding of [src/TinySTL/string.h].  The class template
    [basic_string<CharT, Traits, Alloc>] is embedded as a state-and-exception
    monad over the pair [allocVal] (allocator, [StringValue]); every member
    function that the properties below talk about is transcribed statement by
    statement.

    Modelling conventions.
    - [size_type] is [std::size_t], taken to be 64 bits wide; it is a [Z]
      with the wrap-around written out ([wrap]).
    - A code unit ([value_type]) is a [Z]; a memory cell is an [option Z],
      where [None] is an indeterminate value (storage that was never written
      with a code unit, or the bytes of the other union member).
    - The union [StringValue::Data] records which member was written last.
    - Exceptions are the [Throw] outcome of the monad; the state reached at
      the point of the throw is kept, as in C++. *)

From Stdlib Require Import ZArith Lia.
From stdpp Require Import base option list strings gmap.

Local Open Scope Z_scope.

(** ** [std::size_t] arithmetic *)

Definition size_type_modulus : Z := 2 ^ 64.

Definition wrap (z : Z) : Z := z mod size_type_modulus.

(** [static const size_type npos = static_cast<size_type>(-1)] *)
Definition npos : Z := wrap (-1).

(** [std::numeric_limits<difference_type>::max()] *)
Definition ptrdiff_max : Z := 2 ^ 63 - 1.

(** ** The character type

    The template parameter [CharT] enters the code only through
    [sizeof(value_type)] and the sentinel [value_type()], which is the code
    unit [0].  The class carries the [static_assert] of [StringValue]. *)

Class CharT := {
  sizeof_value_type : Z;
  sizeof_value_type_pos : 1 <= sizeof_value_type;
  sizeof_value_type_assert : sizeof_value_type <= 16
}.

(** The widths behind [string], [u16string] and [u32string]. *)
Definition char : CharT := Build_CharT 1 ltac:(lia) ltac:(lia).

Definition char16_t : CharT := Build_CharT 2 ltac:(lia) ltac:(lia).

Definition char32_t : CharT := Build_CharT 4 ltac:(lia) ltac:(lia).

Definition wchar_t : CharT := char32_t.

(** [value_type()] *)
Definition sentinel : Z := 0.

(** ** Cursors *)

Module Iter.

(** [StringConstIterator<T>]: the wrapped buffer address, counted in
  elements. *)
Record StringConstIterator := ConstIt { ptr : Z }.

(** [StringIterator<T> : StringConstIterator<T>] *)
Record StringIterator := It { Base : StringConstIterator }.

Module Const.
(** [Self& operator++() { ++ptr; return *this; }] *)
Definition pre_inc (p : StringConstIterator) : StringConstIterator :=
  ConstIt (ptr p + 1).

(** [Self& operator--() { ++ptr; return *this; }] *)
Definition pre_dec (p : StringConstIterator) : StringConstIterator :=
  ConstIt (ptr p + 1).

(** [Self& operator+=(difference_type n) { ptr += n; return *this; }] *)
Definition add_assign (p : StringConstIterator) (n : Z) : StringConstIterator :=
  ConstIt (ptr p + n).

(** [Self& operator-=(difference_type n) { ptr -= n; return *this; }] *)
Definition sub_assign (p : StringConstIterator) (n : Z) : StringConstIterator :=
  ConstIt (ptr p - n).

(** [difference_type operator-(const Self& rhs) const] *)
Definition diff (p rhs : StringConstIterator) : Z := ptr p - ptr rhs.

(** [operator==] and [operator<] *)
Definition eq (p rhs : StringConstIterator) : bool := ptr p =? ptr rhs.
Definition lt (p rhs : StringConstIterator) : bool := ptr p <? ptr rhs.
End Const.

Module Mut.
(** [++*static_cast<Base*>(this)] *)
Definition pre_inc (p : StringIterator) : StringIterator :=
  It (Const.pre_inc (Base p)).

(** [--*static_cast<Base*>(this)] *)
Definition pre_dec (p : StringIterator) : StringIterator :=
  It (Const.pre_dec (Base p)).

(** [*static_cast<Base*>(this) += n] and [... -= n] *)
Definition add_assign (p : StringIterator) (n : Z) : StringIterator :=
  It (Const.add_assign (Base p) n).
Definition sub_assign (p : StringIterator) (n : Z) : StringIterator :=
  It (Const.sub_assign (Base p) n).

Definition diff (p rhs : StringIterator) : Z := ptr (Base p) - ptr (Base rhs).
End Mut.

End Iter.

(** ** Memory *)

(** A memory cell: [Some c] holds the code unit [c], [None] is
    indeterminate. *)
Abbreviation cell := (option Z).

(** A [value_type*].  [InlineBuf] is [data.buf] of the string object at hand,
    [HeapBlock a] the start of the allocator block at address [a], and
    [Indeterminate] what reading [data.ptr] gives while [data.buf] is the
    member that was written. *)
Inductive pointer :=
  | InlineBuf
  | HeapBlock (a : Z)
  | Indeterminate.

(** [union Data { value_type buf[kBufferSize]; pointer ptr; ... }], with the
    member written last. *)
Inductive Data :=
  | Data_buf (cells : list cell)
  | Data_ptr (p : pointer).

(** [class StringValue] *)
Record StringValue := MkStringValue {
  size : Z;
  capacity : Z;
  data : Data
}.

(** Calls made on the allocator, and the run of a writer over a fresh block,
    in the order in which they happen. *)
Inductive event :=
  | Allocate (n : Z) (result : option Z)
  | Written (p : pointer) (n : Z)
  | Deallocate (p : pointer) (n : Z).

(** Modelled from the spec: the allocator abstraction of [memory.h], which
    provides [allocate(n)] and [deallocate(p, n)] and whose failure is
    propagated to the caller.  It is instrumented: [blocks] are the live
    blocks, [room] the number of elements it can still hand out, [fresh] the
    address of the next block and [trace] the calls made so far. *)
Record Alloc := MkAlloc {
  blocks : gmap Z (list cell);
  fresh : Z;
  room : Z;
  trace : list event
}.

(** [extra::compress_pair<Alloc, StringValue> allocVal] *)
Record basic_string := MkString {
  getAlloc : Alloc;
  getVal : StringValue
}.

(** ** The monad of member functions *)

Inductive exn :=
  | OutOfRange    (* xRange *)
  | LengthError   (* xLength *)
  | BadAlloc.     (* thrown by Alloc::allocate *)

Inductive outcome (A : Type) :=
  | Ret (a : A)
  | Throw (e : exn).
Arguments Ret {A} a.
Arguments Throw {A} e.

Definition M (A : Type) : Type := basic_string -> outcome A * basic_string.

Definition ret {A} (a : A) : M A := fun s => (Ret a, s).

Definition throw {A} (e : exn) : M A := fun s => (Throw e, s).

Definition bind {A B} (m : M A) (k : A -> M B) : M B :=
  fun s => match m s with
           | (Ret a, s') => k a s'
           | (Throw e, s') => (Throw e, s')
           end.

Declare Scope string_scope_M.
Delimit Scope string_scope_M with M.
Notation "x <- m ;; k" := (bind m (fun x => k))
  (at level 100, m at next level, right associativity) : string_scope_M.
Notation "m ;; k" := (bind m (fun _ => k))
  (at level 100, right associativity) : string_scope_M.
Local Open Scope string_scope_M.

(** Reading and writing the fields of [getVal()] and [getAlloc()]. *)
Definition read {A} (f : StringValue -> A) : M A :=
  fun s => (Ret (f (getVal s)), s).

Definition set_size (n : Z) : M unit :=
  fun s => (Ret tt, MkString (getAlloc s)
                      (MkStringValue n (capacity (getVal s)) (data (getVal s)))).

Definition set_capacity (n : Z) : M unit :=
  fun s => (Ret tt, MkString (getAlloc s)
                      (MkStringValue (size (getVal s)) n (data (getVal s)))).

Definition set_data (d : Data) : M unit :=
  fun s => (Ret tt, MkString (getAlloc s)
                      (MkStringValue (size (getVal s)) (capacity (getVal s)) d)).

Definition note (e : event) : M unit :=
  fun s => let a := getAlloc s in
           (Ret tt, MkString (MkAlloc (blocks a) (fresh a) (room a) (trace a ++ [e]))
                      (getVal s)).

(** [Alloc::allocate(n)]: a block of [n] indeterminate cells, or [BadAlloc]
    when the allocator has no room for it. *)
Definition allocate (n : Z) : M pointer :=
  fun s => let a := getAlloc s in
           if n <=? room a then
             (Ret (HeapBlock (fresh a)),
              MkString (MkAlloc (<[fresh a := replicate (Z.to_nat n) None]> (blocks a))
                                (fresh a + Z.max n 1) (room a - n)
                                (trace a ++ [Allocate n (Some (fresh a))]))
                       (getVal s))
           else
             (Throw BadAlloc,
              MkString (MkAlloc (blocks a) (fresh a) (room a)
                                (trace a ++ [Allocate n None]))
                       (getVal s)).

(** [Alloc::deallocate(p, n)] *)
Definition deallocate (p : pointer) (n : Z) : M unit :=
  fun s => let a := getAlloc s in
           let blocks' := match p with
                          | HeapBlock b => delete b (blocks a)
                          | _ => blocks a
                          end in
           let room' := match p with
                        | HeapBlock b => if decide (is_Some (blocks a !! b))
                                         then room a + n else room a
                        | _ => room a
                        end in
           (Ret tt, MkString (MkAlloc blocks' (fresh a) room'
                                      (trace a ++ [Deallocate p n]))
                             (getVal s)).

(** ** [std::char_traits] over cell arrays

    [Traits::assign] and [Traits::move] are raw stores; on a cell array they
    leave every index they do not name as it is. *)

(** [Traits::assign(p, count, ch)] on the cells that start at [p] *)
Definition fill_cells (count ch : Z) (cells : list cell) : list cell :=
  imap (fun i c => if Z.of_nat i <? count then Some ch else c) cells.

(** [Traits::assign(p[idx], ch)] *)
Definition put_cell (idx ch : Z) (cells : list cell) : list cell :=
  imap (fun i c => if Z.of_nat i =? idx then Some ch else c) cells.

(** [Traits::move(p, src, count)]; a source index past the end of the source
    array reads an indeterminate value. *)
Definition move_cells (src : list cell) (count : Z) (cells : list cell) : list cell :=
  imap (fun i c => if Z.of_nat i <? count then mjoin (src !! i) else c) cells.

(** [Traits::length(str)]: the number of cells before the first sentinel. *)
Fixpoint traits_length (str : list cell) : Z :=
  match str with
  | [] => 0
  | Some 0 :: _ => 0
  | _ :: rest => 1 + traits_length rest
  end.

(** ** [basic_string<CharT, Traits, Alloc>] *)

Section BasicString.

Context {C : CharT}.

(** [kBufferSize = 16 / sizeof(value_type)] *)
Definition kBufferSize : Z := 16 / sizeof_value_type.

(** [kBufferMask] *)
Definition kBufferMask : Z :=
  if sizeof_value_type <=? 1 then 15
  else if sizeof_value_type <=? 2 then 7
  else if sizeof_value_type <=? 4 then 3
  else if sizeof_value_type <=? 8 then 1
  else 0.

(** [StringValue() : size(0), capacity(0), data() { }], where [Data()]
    value-initialises [buf]. *)
Definition StringValue_new : StringValue :=
  MkStringValue 0 0 (Data_buf (replicate (Z.to_nat kBufferSize) (Some sentinel))).

(** [compress_pair(a)]: the allocator is copied, the value is
    default-constructed. *)
Definition allocVal (a : Alloc) : basic_string := MkString a StringValue_new.

(** [bool isShortString() const { return capacity < kBufferSize; }] *)
Definition isShortString (v : StringValue) : bool := capacity v <? kBufferSize.

(** The cells of [data.buf]; while [data.ptr] is the member that was written
    they are the bytes of that pointer, which are no code units. *)
Definition buf_cells (d : Data) : list cell :=
  match d with
  | Data_buf cells => cells
  | Data_ptr _ => replicate (Z.to_nat kBufferSize) None
  end.

(** Reading [data.ptr]. *)
Definition data_ptr (d : Data) : pointer :=
  match d with
  | Data_ptr p => p
  | Data_buf _ => Indeterminate
  end.

(** [getPtr]:
    [ptr = data.ptr; if (isShortString()) ptr = data.buf; return ptr;] *)
Definition getPtr (v : StringValue) : pointer :=
  let ptr := data_ptr (data v) in
  if isShortString v then InlineBuf else ptr.

(** The cells that a pointer addresses. *)
Definition load (s : basic_string) (p : pointer) : list cell :=
  match p with
  | InlineBuf => buf_cells (data (getVal s))
  | HeapBlock a => default [] (blocks (getAlloc s) !! a)
  | Indeterminate => []
  end.

(** A store through a pointer.  A store into [data.buf] makes [buf] the
    member written last; a store through an indeterminate pointer has no
    defined effect and is left out (no path below performs one). *)
Definition store (p : pointer) (f : list cell -> list cell) : M unit :=
  fun s =>
    match p with
    | InlineBuf => set_data (Data_buf (f (buf_cells (data (getVal s))))) s
    | HeapBlock a =>
        let al := getAlloc s in
        (Ret tt, MkString (MkAlloc (alter f a (blocks al)) (fresh al) (room al) (trace al))
                          (getVal s))
    | Indeterminate => (Ret tt, s)
    end.

(** [checkIndex]: [if (idx > size) xRange();] *)
Definition checkIndex (v : StringValue) (idx : Z) : M unit :=
  if size v <? idx then throw OutOfRange else ret tt.

(** [max_size]:
    [min(static_cast<size_type>(-1) / sizeof(value_type) - 1,
         numeric_limits<difference_type>::max())] *)
Definition max_size : Z :=
  Z.min (wrap (wrap (-1) / sizeof_value_type - 1)) ptrdiff_max.

(** [checkLength]: [if (newSize >= max_size()) xLength();] *)
Definition checkLength (newSize : Z) : M unit :=
  if max_size <=? newSize then throw LengthError else ret tt.

(** [capacityGrowth] *)
Definition capacityGrowth (newSize : Z) : M Z :=
  oldSize <- read size ;;
  let masked := Z.lor newSize kBufferMask in
  let maxSize := max_size in
  if maxSize <? masked then ret maxSize
  else if wrap (maxSize - oldSize / 2) <? oldSize then ret maxSize
  else ret (Z.max masked (wrap (oldSize + oldSize / 2))).

(** [initEmpty] *)
Definition initEmpty : M unit :=
  set_size 0 ;;
  set_capacity (kBufferSize - 1) ;;
  store InlineBuf (put_cell 0 sentinel).

(** [reallocAndAssign(newSize, func, args...)]; [func] is the writer with its
    arguments bound.  [note (Written ...)] is instrumentation: it records in
    the trace that the writer has run over the new block. *)
Definition reallocAndAssign (newSize : Z) (func : pointer -> Z -> M unit) : M unit :=
  checkLength newSize ;;
  oldCapacity <- read capacity ;;
  newCapacity <- capacityGrowth newSize ;;
  newPtr <- allocate (wrap (newCapacity + 1)) ;;
  set_size newSize ;;
  set_capacity newCapacity ;;
  func newPtr newSize ;;
  note (Written newPtr newSize) ;;
  (if kBufferSize <=? oldCapacity
   then (p <- read (fun v => data_ptr (data v)) ;;
         deallocate p (wrap (oldCapacity + 1)))
   else ret tt) ;;
  set_data (Data_ptr newPtr).

(** The writer of [init(count, ch)]:
    [Traits::assign(dst, count, ch); Traits::assign(dst[count], value_type());]
    (the lambda names the [ch] of the enclosing call). *)
Definition fill_writer (ch : Z) (dst : pointer) (count : Z) : M unit :=
  store dst (fill_cells count ch) ;;
  store dst (put_cell count sentinel).

(** The writer of [init(str, count)]:
    [Traits::move(dst, src, count); Traits::move(dst[count], value_type());]
    where the second statement, written with [move], stores the sentinel at
    [dst[count]] as the inline branch of the same function does with
    [assign]. *)
Definition copy_writer (src : list cell) (dst : pointer) (count : Z) : M unit :=
  store dst (move_cells src count) ;;
  store dst (put_cell count sentinel).

(** [init(size_type count, value_type ch)] *)
Definition init_fill (count ch : Z) : M unit :=
  cap <- read capacity ;;
  if count <=? cap then
    ptr <- read getPtr ;;
    set_size count ;;
    store ptr (fill_cells count ch) ;;
    store ptr (put_cell count sentinel)
  else
    reallocAndAssign count (fill_writer ch).

(** [init(const value_type* str, size_type count)]; [str] is given by the
    cells it addresses, and the test [count <= getVal().capacity()] reads the
    data member [capacity]. *)
Definition init_ptr (str : list cell) (count : Z) : M unit :=
  cap <- read capacity ;;
  if count <=? cap then
    ptr <- read getPtr ;;
    set_size count ;;
    store ptr (move_cells str count) ;;
    store ptr (put_cell count sentinel)
  else
    reallocAndAssign count (copy_writer str).

(** [init(const basic_string& rhs, size_type pos, size_type count)]:
    [rhs.getVal().checkIndex(pos);
     count = min(count, rhs.getVal().size - pos);
     return init(rhs.getVal().getPtr(), count);] *)
Definition init_substr (rhs : basic_string) (pos count : Z) : M unit :=
  checkIndex (getVal rhs) pos ;;
  let count := Z.min count (wrap (size (getVal rhs) - pos)) in
  init_ptr (load rhs (getPtr (getVal rhs))) count.

(** [init(const value_type* str)] *)
Definition init_cstr (str : list cell) : M unit :=
  init_ptr str (traits_length str).

(** [tidy] *)
Definition tidy : M unit :=
  short <- read isShortString ;;
  (if negb short
   then (ptr <- read getPtr ;;
         cap <- read capacity ;;
         deallocate ptr (wrap (cap + 1)))
   else ret tt) ;;
  initEmpty.

(** [shrink_to_fit]: the body is empty. *)
Definition shrink_to_fit : M unit := ret tt.

(** [reserve(size_type newCapacity)]; the last branch reads [oldSize] and
    [value] and ends. *)
Definition reserve (newCapacity : Z) : M unit :=
  sz <- read size ;;
  if newCapacity <? sz then shrink_to_fit
  else
    cap <- read capacity ;;
    if newCapacity <=? cap then ret tt
    else
      (* reallocate memory if newCapacity > oldCapacity *)
      oldSize <- read size ;;
      value <- read id ;;
      ret tt.

(** *** Constructors and destructor

    A constructor runs its body on [allocVal(a)]. *)

(** [explicit basic_string(const Alloc& a)] *)
Definition new_empty (a : Alloc) : outcome unit * basic_string :=
  initEmpty (allocVal a).

(** [basic_string(size_type count, value_type ch, const Alloc& a)] *)
Definition new_fill (count ch : Z) (a : Alloc) : outcome unit * basic_string :=
  init_fill count ch (allocVal a).

(** [basic_string(const basic_string& rhs, size_type pos, size_type count,
                  const Alloc& a)] *)
Definition new_substr (rhs : basic_string) (pos count : Z) (a : Alloc)
  : outcome unit * basic_string :=
  (initEmpty ;; init_substr rhs pos count) (allocVal a).

(** [basic_string(const basic_string& rhs, size_type pos, const Alloc& a)] *)
Definition new_suffix (rhs : basic_string) (pos : Z) (a : Alloc)
  : outcome unit * basic_string :=
  new_substr rhs pos npos a.

(** [basic_string(const value_type* str, size_type count, const Alloc& a)] *)
Definition new_ptr (str : list cell) (count : Z) (a : Alloc)
  : outcome unit * basic_string :=
  (initEmpty ;; init_ptr str count) (allocVal a).

(** [basic_string(const value_type* str, const Alloc& a)] *)
Definition new_cstr (str : list cell) (a : Alloc) : outcome unit * basic_string :=
  (initEmpty ;; init_cstr str) (allocVal a).

(** [~basic_string() { tidy(); }] *)
Definition destroy : M unit := tidy.

(** *** Observers *)

(** The cells addressed by [getPtr()]. *)
Definition buffer (s : basic_string) : list cell :=
  load s (getPtr (getVal s)).

(** The characters of the string: the first [size()] cells of the buffer. *)
Definition chars (s : basic_string) : list cell :=
  take (Z.to_nat (size (getVal s))) (buffer s).

(** The storage that holds the characters: the union member written last. *)
Definition inline_active (v : StringValue) : bool :=
  match data v with
  | Data_buf _ => true
  | Data_ptr _ => false
  end.

(** The discriminant derived from [capacity] agrees with the union. *)
Definition repr_agrees (v : StringValue) : bool :=
  Bool.eqb (isShortString v) (inline_active v).

End BasicString.

(** ** Instrumentation *)

(** An allocator with no block handed out and [n] elements of room. *)
Definition fresh_alloc (n : Z) : Alloc := MkAlloc ∅ 4096 n [].

Definition is_allocate (e : event) : bool :=
  match e with Allocate _ _ => true | _ => false end.

Definition is_deallocate (e : event) : bool :=
  match e with Deallocate _ _ => true | _ => false end.

(** The number of [allocate] calls in a trace. *)
Definition allocations (t : list event) : nat :=
  length (List.filter is_allocate t).

(** The number of [deallocate] calls in a trace. *)
Definition deallocations (t : list event) : nat :=
  length (List.filter is_deallocate t).

(** A string literal as the cells of a terminated array of [char]. *)
Definition literal (s : String.string) : list cell :=
  map (fun c => Some (Z.of_N (Ascii.N_of_ascii c))) (String.list_ascii_of_string s)
  ++ [Some sentinel].

(** The code units of a text, without terminator. *)
Definition text (s : String.string) : list cell :=
  map (fun c => Some (Z.of_N (Ascii.N_of_ascii c))) (String.list_ascii_of_string s).

(** ** Predicates of the statements *)

(** A writer, as [reallocAndAssign] calls it: on a heap destination its whole
    effect is a store into that block (it performs raw memory copies only). *)
Definition raw_writer {C : CharT} (func : pointer -> Z -> M unit) : Prop :=
  forall a n s, exists f, func (HeapBlock a) n s = store (HeapBlock a) f s.

(** The state in which [reallocAndAssign] calls the writer: the block of
    [newCapacity + 1] elements is allocated, size and capacity are updated,
    the union is as before. *)
Definition before_writer (newSize newCapacity : Z) (s : basic_string) : basic_string :=
  let al := getAlloc s in
  let n := wrap (newCapacity + 1) in
  MkString
    (MkAlloc (<[fresh al := replicate (Z.to_nat n) None]> (blocks al))
             (fresh al + Z.max n 1) (room al - n)
             (trace al ++ [Allocate n (Some (fresh al))]))
    (MkStringValue newSize newCapacity (data (getVal s))).

(** The state in which [reallocAndAssign] returns, for a writer whose effect
    on the new block is [f]. *)
Definition after_realloc {C : CharT} (newSize newCapacity : Z)
    (f : list cell -> list cell) (s : basic_string) : basic_string :=
  let s0 := before_writer newSize newCapacity s in
  let al := getAlloc s0 in
  let written :=
    MkString (MkAlloc (alter f (fresh (getAlloc s)) (blocks al)) (fresh al) (room al)
                      (trace al ++ [Written (HeapBlock (fresh (getAlloc s))) newSize]))
             (getVal s0) in
  let freed :=
    if kBufferSize <=? capacity (getVal s)
    then snd (deallocate (data_ptr (data (getVal s)))
                         (wrap (capacity (getVal s) + 1)) written)
    else written in
  MkString (getAlloc freed)
           (MkStringValue newSize newCapacity (Data_ptr (HeapBlock (fresh (getAlloc s))))).

(** The address the allocator hands out next is not that of a live block. *)
Definition fresh_unused (a : Alloc) : Prop := blocks a !! fresh a = None.

(** The string is not in a freed-but-not-replaced state: when the heap
    pointer is the member stored in the union, its block is live. *)
Definition owns_storage (s : basic_string) : Prop :=
  match data (getVal s) with
  | Data_buf _ => True
  | Data_ptr (HeapBlock a) => is_Some (blocks (getAlloc s) !! a)
  | Data_ptr _ => False
  end.

(** ** Sample strings *)

(** The string ["hello world"], built by the constructor from a terminated
    array. *)
Definition hello_world : basic_string :=
  snd (new_cstr (C:=char) (literal "hello world") (fresh_alloc 1000)).

(** [basic_string<char>(5, 'a')] on an allocator with room to spare. *)
Definition five_a : outcome unit * basic_string :=
  new_fill (C:=char) 5 97 (fresh_alloc 1000).

(** [basic_string<char>(20, 'a')]: size 20, capacity 31, on the heap. *)
Definition twenty_a : basic_string :=
  snd (new_fill (C:=char) 20 97 (fresh_alloc 1000)).

(** [basic_string<char>(101, 'a')]: size 101, capacity 111. *)
Definition hundred_one_a : basic_string :=
  snd (new_fill (C:=char) 101 97 (fresh_alloc 1000)).

(** ** The remaining cursor operators

    A member that changes the cursor and returns a value is a pair: the value
    returned, and the cursor afterwards. *)

Module Cursor.

(** [Self operator++(int) { Self tmp = *this; ++*this; return tmp; }] *)
Definition const_post_inc (p : Iter.StringConstIterator)
  : Iter.StringConstIterator * Iter.StringConstIterator :=
  let tmp := p in (tmp, Iter.Const.pre_inc p).

(** [Self operator--(int) { Self tmp = *this; --*this; return tmp; }] *)
Definition const_post_dec (p : Iter.StringConstIterator)
  : Iter.StringConstIterator * Iter.StringConstIterator :=
  let tmp := p in (tmp, Iter.Const.pre_dec p).

(** [Self operator+(difference_type n) const { Self tmp = *this; return tmp += n; }] *)
Definition const_plus (p : Iter.StringConstIterator) (n : Z) : Iter.StringConstIterator :=
  let tmp := p in Iter.Const.add_assign tmp n.

(** [Self operator-(difference_type n) { Self tmp = *this; return tmp -= n; }] *)
Definition const_minus (p : Iter.StringConstIterator) (n : Z) : Iter.StringConstIterator :=
  let tmp := p in Iter.Const.sub_assign tmp n.

(** [operator!=]: the negation of [operator==] on the same operands *)
Definition ne (p rhs : Iter.StringConstIterator) : bool := negb (Iter.Const.eq p rhs).

(** [operator>]: [rhs < *this] *)
Definition gt (p rhs : Iter.StringConstIterator) : bool := Iter.Const.lt rhs p.

(** [operator<=]: the negation of [rhs < *this] *)
Definition le (p rhs : Iter.StringConstIterator) : bool := negb (Iter.Const.lt rhs p).

(** [operator>=]: the negation of [*this < rhs] *)
Definition ge (p rhs : Iter.StringConstIterator) : bool := negb (Iter.Const.lt p rhs).

(** [StringIterator::operator++(int)] and [operator--(int)] *)
Definition mut_post_inc (p : Iter.StringIterator) : Iter.StringIterator * Iter.StringIterator :=
  let tmp := p in (tmp, Iter.Mut.pre_inc p).

Definition mut_post_dec (p : Iter.StringIterator) : Iter.StringIterator * Iter.StringIterator :=
  let tmp := p in (tmp, Iter.Mut.pre_dec p).

(** [StringIterator::operator-(difference_type n) const] *)
Definition mut_minus (p : Iter.StringIterator) (n : Z) : Iter.StringIterator :=
  let tmp := p in Iter.Mut.sub_assign tmp n.

(** [StringIterator] declares no [operator+]: the one of the base class
    applies and returns a [StringConstIterator]. *)
Definition mut_plus (p : Iter.StringIterator) (n : Z) : Iter.StringConstIterator :=
  const_plus (Iter.Base p) n.

(** [operator*] and [operator[]] over a memory that maps an address to its
    cell: [*ptr] and [*(this->ptr + n)]. *)
Definition deref (mem : Z -> cell) (p : Iter.StringConstIterator) : cell :=
  mem (Iter.ptr p).

Definition index (mem : Z -> cell) (p : Iter.StringConstIterator) (n : Z) : cell :=
  mem (Iter.ptr p + n).

End Cursor.

(** ** The remaining members of [basic_string] *)

Module Str.

(** [size_type length() const noexcept { return size(); }] *)
Definition length (s : basic_string) : Z := size (getVal s).

(** [bool empty() const noexcept { return size() == 0; }] *)
Definition empty (s : basic_string) : bool := size (getVal s) =? 0.

End Str.

Section Ranges.
Context {C : CharT}.

(** [constructRange(const value_type* first, const value_type* last,
                    random_access_iterator_tag)] and its overload for
    [value_type*]:
    [if (first == last) return; init(first, static_cast<size_type>(last - first));]
    The two pointers are given as indices into the array [arr] they point
    into. *)
Definition constructRange (arr : list cell) (first last : Z) : M unit :=
  if first =? last then ret tt
  else init_ptr (drop (Z.to_nat first) arr) (wrap (last - first)).

(** [basic_string(InIter first, InIter last, const Alloc& a)] for a pair of
    pointers, whose iterator category is [random_access_iterator_tag]. *)
Definition new_range (arr : list cell) (first last : Z) (a : Alloc)
  : outcome unit * basic_string :=
  (initEmpty ;; constructRange arr first last) (allocVal a).

(** The state in which a constructor leaves [initEmpty]. *)
Definition empty_string (a : Alloc) : basic_string := snd (initEmpty (allocVal a)).

(** The strings on which the source invokes [capacityGrowth].  Its only
    caller is [reallocAndAssign], whose callers are [init(count, ch)], run by
    the fill constructor on the default-constructed record, and
    [init(str, count)], run by the other constructors on the state that
    [initEmpty] has left. *)
Inductive growth_site : basic_string -> Prop :=
  | site_fill (a : Alloc) : growth_site (allocVal a)
  | site_copy (a : Alloc) : growth_site (empty_string a).

(** The capacity [capacityGrowth] gives a string of size 0 for the request
    [newSize]. *)
Definition first_capacity (newSize : Z) : Z :=
  if max_size <? Z.lor newSize kBufferMask then max_size
  else Z.lor newSize kBufferMask.

(** The string a constructor leaves after one pass through
    [reallocAndAssign] on the allocator [a]: one block of [r + 1] cells, on
    which the writer had the effect [f]. *)
Definition heap_string (a : Alloc) (newSize r : Z) (f : list cell -> list cell)
  : basic_string :=
  MkString
    (MkAlloc (<[fresh a := f (replicate (Z.to_nat (r + 1)) None)]> (blocks a))
             (fresh a + (r + 1)) (room a - (r + 1))
             (trace a ++ [Allocate (r + 1) (Some (fresh a));
                          Written (HeapBlock (fresh a)) newSize]))
    (MkStringValue newSize r (Data_ptr (HeapBlock (fresh a)))).

(** The invariants of the storage record: [size <= capacity <= max_size()],
    the discriminant agrees with the union, [data.buf] has [kBufferSize]
    cells, the buffer has room for [capacity + 1] cells and holds the sentinel
    at index [size], and a stored heap pointer names a live block. *)
Definition well_formed (s : basic_string) : Prop :=
  0 <= size (getVal s) <= capacity (getVal s)
  /\ capacity (getVal s) <= max_size
  /\ repr_agrees (getVal s) = true
  /\ length (buf_cells (data (getVal s))) = Z.to_nat kBufferSize
  /\ capacity (getVal s) + 1 <= Z.of_nat (length (buffer s))
  /\ buffer s !! Z.to_nat (size (getVal s)) = Some (Some sentinel)
  /\ owns_storage s.

End Ranges.
(** * Properties *)

(** ** Cursors *)

Lemma const_pre_dec_moves_forward (p : Iter.StringConstIterator) :
  Iter.ptr (Iter.Const.pre_dec p) = Iter.ptr p + 1.
Proof. reflexivity. Qed.

Lemma mut_pre_dec_moves_forward (p : Iter.StringIterator) :
  Iter.ptr (Iter.Base (Iter.Mut.pre_dec p)) = Iter.ptr (Iter.Base p) + 1.
Proof. reflexivity. Qed.

(** C10 (fails on the code): pre-decrement should undo pre-increment and move
    the cursor one position backward.  [StringConstIterator::operator--]
    executes [++ptr], and [StringIterator::operator--] delegates to it, so for
    both cursor kinds [--p] moves one position forward and [++p] followed by
    [--p] ends two positions past the start, never at the original
    position. *)
Theorem C10_pre_decrement_increments (p : Iter.StringConstIterator) (q : Iter.StringIterator) :
  Iter.ptr (Iter.Const.pre_dec (Iter.Const.pre_inc p)) = Iter.ptr p + 2
  /\ Iter.ptr (Iter.Base (Iter.Mut.pre_dec (Iter.Mut.pre_inc q))) = Iter.ptr (Iter.Base q) + 2
  /\ Iter.Const.pre_dec (Iter.Const.pre_inc p) <> p
  /\ Iter.Mut.pre_dec (Iter.Mut.pre_inc q) <> q
  /\ Iter.ptr (Iter.Const.pre_dec p) <> Iter.ptr p - 1
  /\ Iter.ptr (Iter.Base (Iter.Mut.pre_dec q)) <> Iter.ptr (Iter.Base q) - 1.
Proof.
  destruct p as [a], q as [[b]]; cbn.
  repeat split; try lia.
  - intros E. injection E. lia.
  - intros E. injection E. lia.
Qed.

(** ** [reserve] *)

Lemma shrink_to_fit_noop (s : basic_string) : shrink_to_fit s = (Ret tt, s).
Proof. reflexivity. Qed.

(** C5 (fails on the code): [reserve(n)] with [n > capacity()] should grow the
    capacity to at least [n].  Every branch of [reserve] returns without
    touching the string, the grow branch included, so the call leaves any
    string as it is: a string whose capacity is below [n] keeps that
    capacity. *)
Theorem C5_reserve_never_grows (n : Z) (s : basic_string) :
  reserve n s = (Ret tt, s)
  /\ capacity (getVal (snd (reserve n s))) = capacity (getVal s).
Proof.
  assert (E : reserve n s = (Ret tt, s)).
  { unfold reserve, bind, read, shrink_to_fit, ret.
    destruct (n <? size (getVal s)); [reflexivity|].
    destruct (n <=? capacity (getVal s)); reflexivity. }
  rewrite E. split; reflexivity.
Qed.

(** [reserve(100)] on the empty string: the capacity stays at 15. *)
Lemma reserve_100_on_empty :
  let s := snd (new_empty (C:=char) (fresh_alloc 1000)) in
  capacity (getVal s) = 15
  /\ capacity (getVal (snd (reserve 100 s))) = 15.
Proof. vm_compute. split; reflexivity. Qed.

(** ** The growth engine *)

Section Growth.
Context {C : CharT}.

Lemma wrap_small (z : Z) : 0 <= z < size_type_modulus -> wrap z = z.
Proof. intros H. unfold wrap. apply Z.mod_small. exact H. Qed.

Lemma kBufferSize_bounds : 1 <= kBufferSize <= 16.
Proof.
  unfold kBufferSize.
  pose proof sizeof_value_type_pos. pose proof sizeof_value_type_assert.
  split.
  - apply Z.div_le_lower_bound; lia.
  - apply Z.div_le_upper_bound; lia.
Qed.

Lemma kBufferMask_bounds : 0 <= kBufferMask <= 15.
Proof. unfold kBufferMask. repeat case_match; lia. Qed.

Lemma max_size_bounds : 2 ^ 60 - 2 <= max_size <= ptrdiff_max.
Proof.
  unfold max_size.
  pose proof sizeof_value_type_pos as Hp. pose proof sizeof_value_type_assert as Ha.
  change (wrap (-1)) with 18446744073709551615.
  assert (2 ^ 60 - 1 <= 18446744073709551615 / sizeof_value_type).
  { apply Z.div_le_lower_bound; lia. }
  assert (18446744073709551615 / sizeof_value_type <= 18446744073709551615).
  { apply Z.div_le_upper_bound; nia. }
  rewrite wrap_small by (unfold size_type_modulus; lia).
  unfold ptrdiff_max. lia.
Qed.

Lemma max_size_lt_modulus : max_size < size_type_modulus - 1.
Proof. pose proof max_size_bounds. unfold ptrdiff_max, size_type_modulus in *. lia. Qed.

(** [capacityGrowth] reads the size and leaves the string alone. *)
Lemma capacityGrowth_pure (newSize : Z) (s : basic_string) :
  exists r, capacityGrowth newSize s = (Ret r, s).
Proof.
  unfold capacityGrowth, bind, read, ret.
  repeat case_match; eauto.
Qed.

(** The value [capacityGrowth] returns for a size within [max_size()]. *)
Lemma capacityGrowth_value (newSize : Z) (s : basic_string) :
  0 <= size (getVal s) <= max_size ->
  capacityGrowth newSize s =
    (Ret (if max_size <? Z.lor newSize kBufferMask then max_size
          else if max_size - size (getVal s) / 2 <? size (getVal s) then max_size
          else Z.max (Z.lor newSize kBufferMask)
                     (size (getVal s) + size (getVal s) / 2)), s).
Proof.
  intros Hs. pose proof max_size_lt_modulus as Hm.
  assert (0 <= size (getVal s) / 2 <= size (getVal s)).
  { split; [apply Z.div_pos; lia | apply Z.div_le_upper_bound; lia]. }
  unfold capacityGrowth, bind, read, ret.
  rewrite (wrap_small (max_size - _)) by lia.
  destruct (max_size <? Z.lor newSize kBufferMask); [reflexivity|].
  destruct (max_size - size (getVal s) / 2 <? size (getVal s)) eqn:E; [reflexivity|].
  apply Z.ltb_ge in E.
  rewrite wrap_small by lia. reflexivity.
Qed.

Lemma lor_lower_bound (a b : Z) : 0 <= b -> a <= Z.lor a b.
Proof.
  intros Hb.
  pose proof (Z.add_lor_land a b) as H1.
  pose proof (Z.sub_land_same_l b a) as H2.
  rewrite (Z.land_comm b a) in H2.
  assert (0 <= Z.land b (Z.lnot a)) by (apply Z.land_nonneg; lia).
  lia.
Qed.

(** For a request that [checkLength] lets through, the capacity returned
    covers the request and stays within [max_size()]. *)
Lemma capacityGrowth_covers (newSize : Z) (s : basic_string) :
  0 <= size (getVal s) <= max_size ->
  newSize < max_size ->
  exists r, capacityGrowth newSize s = (Ret r, s) /\ newSize <= r <= max_size.
Proof.
  intros Hs Hlt. rewrite capacityGrowth_value by exact Hs.
  eexists; split; [reflexivity|].
  pose proof (lor_lower_bound newSize kBufferMask (proj1 kBufferMask_bounds)).
  destruct (Z.ltb_spec max_size (Z.lor newSize kBufferMask)); [lia|].
  destruct (Z.ltb_spec (max_size - size (getVal s) / 2) (size (getVal s))); lia.
Qed.

Lemma growth_site_size (s : basic_string) : growth_site s -> size (getVal s) = 0.
Proof. intros [a|a]; reflexivity. Qed.

(** C9: for every string whose current size is within [max_size()] and
    every requested size, [capacityGrowth] never returns more than
    [max_size()]; and when [size <= max_size() - size / 2] and the
    mask-rounded request is within [max_size()], the returned capacity is at
    least 1.5 times the current size as [size_type] arithmetic has it,
    [size + size / 2], and at least the mask-rounded request.  Twice the
    capacity is at least [3 * size - size mod 2], so the bound is 1.5 times
    the size exactly for every even size, and in particular on every string
    on which the source invokes the function, where the size is 0. *)
Theorem C9_capacityGrowth_bounds (newSize : Z) (s : basic_string) :
  0 <= size (getVal s) <= max_size ->
  exists r, capacityGrowth newSize s = (Ret r, s)
    /\ r <= max_size
    /\ (size (getVal s) <= max_size - size (getVal s) / 2 ->
        Z.lor newSize kBufferMask <= max_size ->
        size (getVal s) + size (getVal s) / 2 <= r
        /\ Z.lor newSize kBufferMask <= r
        /\ 3 * size (getVal s) - size (getVal s) mod 2 <= 2 * r
        /\ (size (getVal s) mod 2 = 0 -> 3 * size (getVal s) <= 2 * r)
        /\ (growth_site s -> 3 * size (getVal s) <= 2 * r)).
Proof.
  intros Hs. rewrite capacityGrowth_value by exact Hs.
  eexists; split; [reflexivity|].
  destruct (max_size <? Z.lor newSize kBufferMask) eqn:E1.
  { apply Z.ltb_lt in E1. split; [lia|]. intros; lia. }
  apply Z.ltb_ge in E1.
  destruct (max_size - size (getVal s) / 2 <? size (getVal s)) eqn:E2.
  { apply Z.ltb_lt in E2. split; [lia|]. intros; lia. }
  apply Z.ltb_ge in E2.
  split; [lia|]. intros _ _.
  pose proof (Z.div_mod (size (getVal s)) 2 ltac:(lia)).
  pose proof (Z.mod_pos_bound (size (getVal s)) 2 ltac:(lia)).
  repeat split; try lia.
  intros Hsite. rewrite (growth_site_size s Hsite) in *. lia.
Qed.

End Growth.

(** The bounds where the constructor from a pointer invokes the function for
    20 characters: the string [initEmpty] has left, of size 0. *)
Lemma C9_capacityGrowth_bounds_witness :
  0 <= size (getVal (empty_string (C:=char) (fresh_alloc 1000))) <= max_size (C:=char)
  /\ exists r,
       capacityGrowth (C:=char) 20 (empty_string (C:=char) (fresh_alloc 1000))
       = (Ret r, empty_string (C:=char) (fresh_alloc 1000))
       /\ r <= max_size (C:=char)
       /\ Z.lor 20 (kBufferMask (C:=char)) <= r
       /\ 3 * size (getVal (empty_string (C:=char) (fresh_alloc 1000))) <= 2 * r.
Proof.
  assert (H : 0 <= size (getVal (empty_string (C:=char) (fresh_alloc 1000)))
              <= max_size (C:=char)).
  { vm_compute. split; discriminate. }
  split; [exact H|].
  destruct (C9_capacityGrowth_bounds (C:=char) 20
              (empty_string (C:=char) (fresh_alloc 1000)) H)
    as (r & Hr & Hmax & Hgrow).
  assert (H1 : size (getVal (empty_string (C:=char) (fresh_alloc 1000)))
               <= max_size (C:=char)
                  - size (getVal (empty_string (C:=char) (fresh_alloc 1000))) / 2).
  { vm_compute. discriminate. }
  assert (H2 : Z.lor 20 (kBufferMask (C:=char)) <= max_size (C:=char)).
  { vm_compute. discriminate. }
  destruct (Hgrow H1 H2) as (_ & Hmask & _ & _ & Hsite).
  exists r. split; [exact Hr|]. split; [exact Hmax|]. split; [exact Hmask|].
  apply Hsite. apply site_copy.
Defined.

(** In [size_type] arithmetic 1.5 times 101 is [101 + 50]: the string of 101
    characters asked to grow to 112 would get the capacity 151. *)
Lemma capacityGrowth_at_101 :
  size (getVal hundred_one_a) = 101
  /\ capacityGrowth (C:=char) 112 hundred_one_a = (Ret 151, hundred_one_a)
  /\ 151 = 101 + 101 / 2.
Proof. vm_compute. repeat split; reflexivity. Qed.
(** ** Reallocation *)

Section Realloc.
Context {C : CharT}.

Lemma alter_alter (f g : list cell -> list cell) (a : Z) (m : gmap Z (list cell)) :
  alter g a (alter f a m) = alter (g ∘ f) a m.
Proof.
  apply map_eq. intros j. destruct (decide (a = j)) as [->|Hne].
  - rewrite !lookup_alter_eq. destruct (m !! j); reflexivity.
  - rewrite !lookup_alter_ne by exact Hne. reflexivity.
Qed.

Lemma store_store_heap (a : Z) (f g : list cell -> list cell) (s : basic_string) :
  (store (HeapBlock a) f ;; store (HeapBlock a) g) s = store (HeapBlock a) (g ∘ f) s.
Proof. unfold bind, store. cbn. rewrite alter_alter. reflexivity. Qed.

Lemma fill_writer_raw (ch : Z) : raw_writer (fill_writer ch).
Proof. intros a n s. eexists. unfold fill_writer. apply store_store_heap. Qed.

Lemma copy_writer_raw (src : list cell) : raw_writer (copy_writer src).
Proof. intros a n s. eexists. unfold copy_writer. apply store_store_heap. Qed.

Lemma checkLength_throws (newSize : Z) (s : basic_string) :
  max_size <= newSize -> checkLength newSize s = (Throw LengthError, s).
Proof.
  intros H. unfold checkLength.
  destruct (Z.leb_spec max_size newSize); [reflexivity | lia].
Qed.

Lemma checkLength_passes (newSize : Z) (s : basic_string) :
  newSize < max_size -> checkLength newSize s = (Ret tt, s).
Proof.
  intros H. unfold checkLength.
  destruct (Z.leb_spec max_size newSize); [lia | reflexivity].
Qed.

(** A size that meets [max_size()] is refused at the first statement. *)
Lemma reallocAndAssign_too_long (newSize : Z) (func : pointer -> Z -> M unit)
    (s : basic_string) :
  max_size <= newSize -> reallocAndAssign newSize func s = (Throw LengthError, s).
Proof.
  intros H. unfold reallocAndAssign, bind at 1.
  rewrite checkLength_throws by exact H. reflexivity.
Qed.

(** The allocator refuses: nothing but the failed call has happened. *)
Lemma reallocAndAssign_bad_alloc (newSize newCapacity : Z)
    (func : pointer -> Z -> M unit) (s : basic_string) :
  newSize < max_size ->
  capacityGrowth newSize s = (Ret newCapacity, s) ->
  room (getAlloc s) < wrap (newCapacity + 1) ->
  reallocAndAssign newSize func s =
    (Throw BadAlloc,
     MkString (MkAlloc (blocks (getAlloc s)) (fresh (getAlloc s)) (room (getAlloc s))
                       (trace (getAlloc s) ++ [Allocate (wrap (newCapacity + 1)) None]))
              (getVal s)).
Proof.
  intros Hlt Hg Hroom. unfold reallocAndAssign.
  unfold bind at 1. rewrite checkLength_passes by exact Hlt.
  unfold bind at 1. unfold read at 1.
  unfold bind at 1. rewrite Hg.
  unfold bind at 1. unfold allocate.
  destruct (Z.leb_spec (wrap (newCapacity + 1)) (room (getAlloc s))); [lia|].
  reflexivity.
Qed.

(** The allocator delivers: the call returns in the state [after_realloc]. *)
Lemma reallocAndAssign_returns_with (newSize newCapacity : Z)
    (func : pointer -> Z -> M unit) (f : list cell -> list cell) (s : basic_string) :
  func (HeapBlock (fresh (getAlloc s))) newSize (before_writer newSize newCapacity s)
    = store (HeapBlock (fresh (getAlloc s))) f (before_writer newSize newCapacity s) ->
  newSize < max_size ->
  capacityGrowth newSize s = (Ret newCapacity, s) ->
  wrap (newCapacity + 1) <= room (getAlloc s) ->
  reallocAndAssign newSize func s = (Ret tt, after_realloc newSize newCapacity f s).
Proof.
  intros Hf Hlt Hg Hroom.
  unfold reallocAndAssign.
  unfold bind at 1. rewrite checkLength_passes by exact Hlt.
  unfold bind at 1. unfold read at 1.
  unfold bind at 1. rewrite Hg.
  unfold bind at 1. unfold allocate.
  destruct (Z.leb_spec (wrap (newCapacity + 1)) (room (getAlloc s))); [|lia].
  unfold bind at 1. unfold set_size at 1. cbn [getAlloc getVal size capacity data].
  unfold bind at 1. unfold set_capacity at 1. cbn [getAlloc getVal size capacity data].
  unfold before_writer in Hf. cbv zeta in Hf.
  unfold bind at 1. rewrite Hf. unfold store at 1.
  cbn [getAlloc getVal size capacity data blocks fresh room trace].
  unfold bind at 1. unfold note at 1.
  cbn [getAlloc getVal size capacity data blocks fresh room trace].
  unfold bind at 1. unfold after_realloc, before_writer.
  cbn [getAlloc getVal size capacity data blocks fresh room trace].
  destruct (kBufferSize <=? capacity (getVal s)).
  - unfold bind at 1. unfold read at 1. cbn [getAlloc getVal size capacity data].
    unfold deallocate, set_data. cbn. reflexivity.
  - unfold ret, set_data. cbn. reflexivity.
Qed.

Lemma reallocAndAssign_returns (newSize newCapacity : Z)
    (func : pointer -> Z -> M unit) (s : basic_string) :
  raw_writer func ->
  newSize < max_size ->
  capacityGrowth newSize s = (Ret newCapacity, s) ->
  wrap (newCapacity + 1) <= room (getAlloc s) ->
  exists f,
    reallocAndAssign newSize func s = (Ret tt, after_realloc newSize newCapacity f s).
Proof.
  intros Hw Hlt Hg Hroom.
  destruct (Hw (fresh (getAlloc s)) newSize (before_writer newSize newCapacity s))
    as [f Hf].
  exists f. apply reallocAndAssign_returns_with; assumption.
Qed.

Lemma fill_writer_store (ch : Z) (a n : Z) (s : basic_string) :
  fill_writer ch (HeapBlock a) n s
  = store (HeapBlock a) (put_cell n sentinel ∘ fill_cells n ch) s.
Proof. unfold fill_writer. apply store_store_heap. Qed.

Lemma copy_writer_store (src : list cell) (a n : Z) (s : basic_string) :
  copy_writer src (HeapBlock a) n s
  = store (HeapBlock a) (put_cell n sentinel ∘ move_cells src n) s.
Proof. unfold copy_writer. apply store_store_heap. Qed.

Lemma deallocations_app (t u : list event) :
  deallocations (t ++ u) = (deallocations t + deallocations u)%nat.
Proof. unfold deallocations. rewrite List.filter_app, length_app. reflexivity. Qed.

Lemma allocations_app (t u : list event) :
  allocations (t ++ u) = (allocations t + allocations u)%nat.
Proof. unfold allocations. rewrite List.filter_app, length_app. reflexivity. Qed.

(** C7: [reallocAndAssign] throws the length error exactly when
    [newSize >= max_size()], and then the string and its allocator are as
    before the call (no allocator call is in the trace); constructing with
    [count == max_size()], by fill or from a pointer, throws the length error
    with the allocator untouched. *)
Theorem C7_length_error_before_allocation (newSize : Z)
    (func : pointer -> Z -> M unit) (s : basic_string) :
  raw_writer func ->
  (fst (reallocAndAssign newSize func s) = Throw LengthError <-> max_size <= newSize)
  /\ (max_size <= newSize ->
      snd (reallocAndAssign newSize func s) = s
      /\ trace (getAlloc (snd (reallocAndAssign newSize func s))) = trace (getAlloc s))
  /\ (forall ch a, new_fill max_size ch a = (Throw LengthError, allocVal a))
  /\ (forall str a,
        fst (new_ptr str max_size a) = Throw LengthError
        /\ getAlloc (snd (new_ptr str max_size a)) = a).
Proof.
  intros Hw. pose proof max_size_bounds as Hm. pose proof kBufferSize_bounds as Hk.
  repeat split.
  - intros E. destruct (Z.le_gt_cases max_size newSize) as [|Hlt]; [assumption|].
    exfalso. destruct (capacityGrowth_pure newSize s) as [r Hr].
    destruct (Z.le_gt_cases (wrap (r + 1)) (room (getAlloc s))) as [Hroom|Hroom].
    + destruct (reallocAndAssign_returns newSize r func s Hw Hlt Hr Hroom) as [f Hf].
      rewrite Hf in E. discriminate E.
    + rewrite (reallocAndAssign_bad_alloc newSize r func s Hlt Hr Hroom) in E.
      discriminate E.
  - intros H. rewrite reallocAndAssign_too_long by exact H. reflexivity.
  - rewrite reallocAndAssign_too_long by assumption. reflexivity.
  - rewrite reallocAndAssign_too_long by assumption. reflexivity.
  - intros ch a. unfold new_fill, init_fill.
    unfold bind at 1. unfold read at 1. cbn [allocVal getVal StringValue_new capacity].
    destruct (Z.leb_spec max_size 0); [lia|].
    apply reallocAndAssign_too_long. lia.
  - unfold new_ptr, init_ptr, initEmpty, bind, read, set_size, set_capacity, store, set_data.
    cbn [allocVal getVal getAlloc StringValue_new capacity size data fst snd].
    destruct (Z.leb_spec max_size (kBufferSize - 1)); [lia|].
    rewrite reallocAndAssign_too_long by lia. reflexivity.
  - unfold new_ptr, init_ptr, initEmpty, bind, read, set_size, set_capacity, store, set_data.
    cbn [allocVal getVal getAlloc StringValue_new capacity size data fst snd].
    destruct (Z.leb_spec max_size (kBufferSize - 1)); [lia|].
    rewrite reallocAndAssign_too_long by lia. reflexivity.
Qed.


End Realloc.

(** The length error at [newSize = max_size()] for [string], with the fill
    writer, on a fresh object. *)
Lemma C7_length_error_before_allocation_witness :
  raw_writer (C:=char) (fill_writer (C:=char) 97)
  /\ (fst (reallocAndAssign (C:=char) (max_size (C:=char)) (fill_writer (C:=char) 97)
             (allocVal (C:=char) (fresh_alloc 1000))) = Throw LengthError
       <-> max_size (C:=char) <= max_size (C:=char))
  /\ snd (reallocAndAssign (C:=char) (max_size (C:=char)) (fill_writer (C:=char) 97)
            (allocVal (C:=char) (fresh_alloc 1000)))
     = allocVal (C:=char) (fresh_alloc 1000).
Proof.
  pose proof (fill_writer_raw (C:=char) 97) as Hw.
  destruct (C7_length_error_before_allocation (C:=char) (max_size (C:=char))
              (fill_writer (C:=char) 97) (allocVal (C:=char) (fresh_alloc 1000)) Hw)
    as (Hiff & Hsame & _).
  split; [exact Hw|]. split; [exact Hiff|].
  apply Hsame. apply Z.le_refl.
Defined.


(** Growing the 20-character heap string to 40 characters: the old block of
    32 elements is released last. *)
Lemma realloc_twenty_a_trace :
  let r := reallocAndAssign (C:=char) 40 (fill_writer (C:=char) 98) twenty_a in
  fst r = Ret tt
  /\ trace (getAlloc (snd r))
     = [Allocate 32 (Some 4096); Written (HeapBlock 4096) 20;
        Allocate 48 (Some 4128); Written (HeapBlock 4128) 40;
        Deallocate (HeapBlock 4096) 32]
  /\ getVal (snd r) = MkStringValue 40 47 (Data_ptr (HeapBlock 4128))
  /\ blocks (getAlloc (snd r)) !! 4096 = None.
Proof. vm_compute. repeat split; reflexivity. Qed.

(** The same call on an allocator that has no room left: [BadAlloc], and the
    string still owns its block of 32 elements with its 20 characters. *)
Lemma realloc_twenty_a_refused :
  let s := MkString (MkAlloc (blocks (getAlloc twenty_a)) 4128 10 []) (getVal twenty_a) in
  let r := reallocAndAssign (C:=char) 40 (fill_writer (C:=char) 98) s in
  fst r = Throw BadAlloc
  /\ getVal (snd r) = MkStringValue 20 31 (Data_ptr (HeapBlock 4096))
  /\ chars (C:=char) (snd r) = replicate 20 (Some 97)
  /\ trace (getAlloc (snd r)) = [Allocate 48 None].
Proof. vm_compute. repeat split; reflexivity. Qed.

(** ** Construction and destruction *)

(** *** Stores into cell arrays *)

Lemma length_put_cell (idx ch : Z) (cells : list cell) :
  length (put_cell idx ch cells) = length cells.
Proof. apply length_imap. Qed.

Lemma length_fill_cells (count ch : Z) (cells : list cell) :
  length (fill_cells count ch cells) = length cells.
Proof. apply length_imap. Qed.

Lemma length_move_cells (src : list cell) (count : Z) (cells : list cell) :
  length (move_cells src count cells) = length cells.
Proof. apply length_imap. Qed.

Lemma put_cell_lookup_ne (idx ch : Z) (cells : list cell) (i : nat) :
  Z.of_nat i <> idx -> put_cell idx ch cells !! i = cells !! i.
Proof.
  intros Hne. unfold put_cell. rewrite list_lookup_imap.
  destruct (Z.eqb_spec (Z.of_nat i) idx); [contradiction|].
  destruct (cells !! i); reflexivity.
Qed.

Lemma put_cell_lookup_eq (idx ch : Z) (cells : list cell) (i : nat) :
  Z.of_nat i = idx -> (i < length cells)%nat ->
  put_cell idx ch cells !! i = Some (Some ch).
Proof.
  intros Heq Hlt. unfold put_cell. rewrite list_lookup_imap.
  destruct (lookup_lt_is_Some_2 cells i Hlt) as [c ->]. cbn.
  destruct (Z.eqb_spec (Z.of_nat i) idx); [reflexivity | contradiction].
Qed.

Lemma fill_cells_lookup_lt (count ch : Z) (cells : list cell) (i : nat) :
  Z.of_nat i < count -> (i < length cells)%nat ->
  fill_cells count ch cells !! i = Some (Some ch).
Proof.
  intros Hi Hlt. unfold fill_cells. rewrite list_lookup_imap.
  destruct (lookup_lt_is_Some_2 cells i Hlt) as [c ->]. cbn.
  destruct (Z.ltb_spec (Z.of_nat i) count); [reflexivity | lia].
Qed.

Lemma fill_cells_lookup_ge (count ch : Z) (cells : list cell) (i : nat) :
  count <= Z.of_nat i -> fill_cells count ch cells !! i = cells !! i.
Proof.
  intros Hi. unfold fill_cells. rewrite list_lookup_imap.
  destruct (Z.ltb_spec (Z.of_nat i) count); [lia|].
  destruct (cells !! i); reflexivity.
Qed.

Lemma move_cells_lookup_lt (src : list cell) (count : Z) (cells : list cell) (i : nat) :
  Z.of_nat i < count -> (i < length cells)%nat ->
  move_cells src count cells !! i = Some (mjoin (src !! i)).
Proof.
  intros Hi Hlt. unfold move_cells. rewrite list_lookup_imap.
  destruct (lookup_lt_is_Some_2 cells i Hlt) as [c ->]. cbn.
  destruct (Z.ltb_spec (Z.of_nat i) count); [reflexivity | lia].
Qed.

Section Constructors.
Context {C : CharT}.

(** [initEmpty] always succeeds and leaves the empty short string. *)
Lemma initEmpty_state (s : basic_string) :
  initEmpty s =
    (Ret tt,
     MkString (getAlloc s)
       (MkStringValue 0 (kBufferSize - 1)
          (Data_buf (put_cell 0 sentinel (buf_cells (data (getVal s))))))).
Proof. reflexivity. Qed.

Lemma isShortString_inline (n : Z) (d : Data) :
  isShortString (MkStringValue n (kBufferSize - 1) d) = true.
Proof. unfold isShortString. cbn. apply Z.ltb_lt. lia. Qed.

Lemma buffer_inline (al : Alloc) (n : Z) (cells : list cell) :
  buffer (MkString al (MkStringValue n (kBufferSize - 1) (Data_buf cells))) = cells.
Proof.
  unfold buffer, getPtr. cbn [getVal]. rewrite isShortString_inline. reflexivity.
Qed.

Lemma chars_inline (al : Alloc) (n : Z) (cells : list cell) :
  chars (MkString al (MkStringValue n (kBufferSize - 1) (Data_buf cells)))
  = take (Z.to_nat n) cells.
Proof. unfold chars. rewrite buffer_inline. reflexivity. Qed.

(** The copy primitive on a short string whose capacity is the inline one,
    for a count that fits: the characters go to [data.buf], no allocator
    call is made. *)
Lemma init_ptr_inline (str : list cell) (count : Z) (s : basic_string) :
  capacity (getVal s) = kBufferSize - 1 ->
  count <= kBufferSize - 1 ->
  init_ptr str count s =
    (Ret tt,
     MkString (getAlloc s)
       (MkStringValue count (kBufferSize - 1)
          (Data_buf (put_cell count sentinel
                       (move_cells str count (buf_cells (data (getVal s)))))))).
Proof.
  intros Hcap Hle. unfold init_ptr.
  unfold bind at 1. unfold read at 1. rewrite Hcap.
  destruct (Z.leb_spec count (kBufferSize - 1)); [|lia].
  unfold bind at 1. unfold read at 1.
  assert (Hp : getPtr (getVal s) = InlineBuf).
  { unfold getPtr, isShortString. rewrite Hcap.
    destruct (Z.ltb_spec (kBufferSize - 1) kBufferSize); [reflexivity | lia]. }
  rewrite Hp. unfold bind, set_size, store, set_data. cbn. rewrite Hcap. reflexivity.
Qed.

(** The fill primitive under the same conditions. *)
Lemma init_fill_inline (count ch : Z) (s : basic_string) :
  capacity (getVal s) = kBufferSize - 1 ->
  count <= kBufferSize - 1 ->
  init_fill count ch s =
    (Ret tt,
     MkString (getAlloc s)
       (MkStringValue count (kBufferSize - 1)
          (Data_buf (put_cell count sentinel
                       (fill_cells count ch (buf_cells (data (getVal s)))))))).
Proof.
  intros Hcap Hle. unfold init_fill.
  unfold bind at 1. unfold read at 1. rewrite Hcap.
  destruct (Z.leb_spec count (kBufferSize - 1)); [|lia].
  unfold bind at 1. unfold read at 1.
  assert (Hp : getPtr (getVal s) = InlineBuf).
  { unfold getPtr, isShortString. rewrite Hcap.
    destruct (Z.ltb_spec (kBufferSize - 1) kBufferSize); [reflexivity | lia]. }
  rewrite Hp. unfold bind, set_size, store, set_data. cbn. rewrite Hcap. reflexivity.
Qed.

(** When [reallocAndAssign] returns for a size of at least [kBufferSize], the
    new capacity covers the size, is not below [kBufferSize], and the heap
    pointer is the stored member: discriminant and union agree. *)
Lemma reallocAndAssign_heap (newSize : Z) (func : pointer -> Z -> M unit)
    (s : basic_string) :
  raw_writer func ->
  0 <= size (getVal s) <= max_size ->
  kBufferSize <= newSize ->
  fst (reallocAndAssign newSize func s) = Ret tt ->
  let v := getVal (snd (reallocAndAssign newSize func s)) in
  size v = newSize
  /\ newSize <= capacity v <= max_size
  /\ isShortString v = false
  /\ inline_active v = false
  /\ repr_agrees v = true.
Proof.
  intros Hw Hs Hk Hret. cbv zeta.
  pose proof kBufferSize_bounds as Hb. pose proof kBufferMask_bounds as Hmask.
  destruct (Z.le_gt_cases max_size newSize) as [Hge|Hlt].
  { rewrite reallocAndAssign_too_long in Hret by exact Hge. discriminate Hret. }
  destruct (capacityGrowth_covers newSize s Hs Hlt) as (r & Hr & Hrk & Hmax).
  destruct (Z.le_gt_cases (wrap (r + 1)) (room (getAlloc s))) as [Hroom|Hroom].
  2:{ rewrite (reallocAndAssign_bad_alloc newSize r func s Hlt Hr Hroom) in Hret.
      discriminate Hret. }
  destruct (reallocAndAssign_returns newSize r func s Hw Hlt Hr Hroom) as [f Hf].
  rewrite Hf. unfold after_realloc. cbn [snd getVal size capacity].
  unfold repr_agrees, isShortString, inline_active. cbn [capacity data].
  destruct (Z.ltb_spec r kBufferSize); [lia|].
  repeat split; try reflexivity; lia.
Qed.

Lemma init_ptr_heap (str : list cell) (count : Z) (s : basic_string) :
  capacity (getVal s) < count ->
  init_ptr str count s = reallocAndAssign count (copy_writer str) s.
Proof.
  intros Hlt. unfold init_ptr. unfold bind at 1. unfold read at 1.
  destruct (Z.leb_spec count (capacity (getVal s))); [lia | reflexivity].
Qed.

Lemma init_fill_heap (count ch : Z) (s : basic_string) :
  capacity (getVal s) < count ->
  init_fill count ch s = reallocAndAssign count (fill_writer ch) s.
Proof.
  intros Hlt. unfold init_fill. unfold bind at 1. unfold read at 1.
  destruct (Z.leb_spec count (capacity (getVal s))); [lia | reflexivity].
Qed.

(** Started on the state that [initEmpty] leaves, the copy primitive keeps
    discriminant and union in agreement, and it calls the allocator only for
    a count of at least [kBufferSize]. *)
Lemma init_ptr_after_initEmpty (str : list cell) (count : Z) (s : basic_string) :
  capacity (getVal s) = kBufferSize - 1 ->
  size (getVal s) = 0 ->
  fst (init_ptr str count s) = Ret tt ->
  repr_agrees (getVal (snd (init_ptr str count s))) = true
  /\ size (getVal (snd (init_ptr str count s))) = count
  /\ (count < kBufferSize -> getAlloc (snd (init_ptr str count s)) = getAlloc s).
Proof.
  intros Hcap Hsize Hret. pose proof max_size_bounds as Hm.
  destruct (Z.le_gt_cases count (kBufferSize - 1)) as [Hle|Hgt].
  - rewrite init_ptr_inline by assumption. cbn [snd getVal getAlloc size].
    unfold repr_agrees. rewrite isShortString_inline. auto.
  - rewrite init_ptr_heap in * by lia.
    destruct (reallocAndAssign_heap count (copy_writer str) s) as (Hsz & _ & _ & _ & Hagree);
      [apply copy_writer_raw | rewrite Hsize; lia | lia | exact Hret |].
    split; [exact Hagree|]. split; [exact Hsz | lia].
Qed.

(** The constructors that start with [initEmpty]. *)
Lemma new_ptr_unfold (str : list cell) (count : Z) (a : Alloc) :
  new_ptr str count a = init_ptr str count (snd (initEmpty (allocVal a))).
Proof. reflexivity. Qed.

Lemma new_substr_unfold (rhs : basic_string) (pos count : Z) (a : Alloc) :
  new_substr rhs pos count a = init_substr rhs pos count (snd (initEmpty (allocVal a))).
Proof. reflexivity. Qed.

Lemma init_substr_in_range (rhs : basic_string) (pos count : Z) (s : basic_string) :
  pos <= size (getVal rhs) ->
  init_substr rhs pos count s =
    init_ptr (buffer rhs) (Z.min count (wrap (size (getVal rhs) - pos))) s.
Proof.
  intros Hle. unfold init_substr, checkIndex. unfold bind at 1.
  destruct (Z.ltb_spec (size (getVal rhs)) pos); [lia | reflexivity].
Qed.

Lemma init_substr_out_of_range (rhs : basic_string) (pos count : Z) (s : basic_string) :
  size (getVal rhs) < pos ->
  init_substr rhs pos count s = (Throw OutOfRange, s).
Proof.
  intros Hlt. unfold init_substr, checkIndex. unfold bind at 1.
  destruct (Z.ltb_spec (size (getVal rhs)) pos); [reflexivity | lia].
Qed.

(** Every constructor that starts with [initEmpty], and the destructor,
    leave discriminant and union in agreement. *)
Lemma initEmpty_constructors_agree (a : Alloc) :
  repr_agrees (getVal (snd (new_empty a))) = true
  /\ (forall str count,
        fst (new_ptr str count a) = Ret tt ->
        repr_agrees (getVal (snd (new_ptr str count a))) = true)
  /\ (forall str,
        fst (new_cstr str a) = Ret tt ->
        repr_agrees (getVal (snd (new_cstr str a))) = true)
  /\ (forall rhs pos count,
        fst (new_substr rhs pos count a) = Ret tt ->
        repr_agrees (getVal (snd (new_substr rhs pos count a))) = true).
Proof.
  assert (Hptr : forall str count,
             fst (new_ptr str count a) = Ret tt ->
             repr_agrees (getVal (snd (new_ptr str count a))) = true).
  { intros str count. rewrite new_ptr_unfold. intros Hret.
    apply init_ptr_after_initEmpty; [reflexivity | reflexivity | exact Hret]. }
  split; [|split; [exact Hptr | split]].
  - unfold new_empty. rewrite initEmpty_state. cbn [snd getVal].
    unfold repr_agrees. rewrite isShortString_inline. reflexivity.
  - intros str. apply Hptr.
  - intros rhs pos count. rewrite new_substr_unfold.
    destruct (Z.le_gt_cases pos (size (getVal rhs))) as [Hle|Hgt].
    + rewrite init_substr_in_range by exact Hle. intros Hret.
      apply init_ptr_after_initEmpty; [reflexivity | reflexivity | exact Hret].
    + rewrite init_substr_out_of_range by exact Hgt. discriminate.
Qed.

Lemma tidy_state (s : basic_string) :
  exists al,
    tidy s =
      (Ret tt,
       MkString al
         (MkStringValue 0 (kBufferSize - 1)
            (Data_buf (put_cell 0 sentinel (buf_cells (data (getVal s))))))).
Proof.
  unfold tidy. unfold bind at 1. unfold read at 1.
  destruct (isShortString (getVal s)); cbn [negb]; eexists; reflexivity.
Qed.

(** With [isShortString()] true the destructor makes no allocator call. *)
Lemma tidy_short (s : basic_string) :
  isShortString (getVal s) = true -> tidy s = initEmpty s.
Proof.
  intros H. unfold tidy. unfold bind at 1. unfold read at 1. rewrite H. reflexivity.
Qed.

(** With the heap representation the destructor hands the stored pointer
    back to the allocator, with the capacity plus one as the size. *)
Lemma tidy_heap (s : basic_string) (p : pointer) :
  isShortString (getVal s) = false ->
  data (getVal s) = Data_ptr p ->
  trace (getAlloc (snd (tidy s)))
  = trace (getAlloc s) ++ [Deallocate p (wrap (capacity (getVal s) + 1))].
Proof.
  intros Hshort Hdata. unfold tidy. unfold bind at 1. unfold read at 1.
  rewrite Hshort. cbn [negb].
  unfold bind at 1. unfold bind at 1. unfold read at 1.
  unfold getPtr. rewrite Hshort, Hdata. cbn [data_ptr].
  unfold bind at 1. unfold read at 1. unfold deallocate.
  rewrite initEmpty_state. reflexivity.
Qed.

Lemma tidy_agrees (s : basic_string) :
  fst (tidy s) = Ret tt
  /\ repr_agrees (getVal (snd (tidy s))) = true
  /\ size (getVal (snd (tidy s))) = 0.
Proof.
  destruct (tidy_state s) as [al ->]. cbn [fst snd getVal size].
  unfold repr_agrees. rewrite isShortString_inline. auto.
Qed.

(** Substring construction whose clamped count fits the inline buffer: the
    result holds, at every index [i] below the count, the cell at index [i]
    of the source buffer, whatever [pos] is. *)
Lemma new_substr_copies_prefix (rhs : basic_string) (pos count : Z) (a : Alloc) (i : nat) :
  0 <= pos <= size (getVal rhs) ->
  size (getVal rhs) < size_type_modulus ->
  let n := Z.min count (size (getVal rhs) - pos) in
  n < kBufferSize ->
  Z.of_nat i < n ->
  fst (new_substr rhs pos count a) = Ret tt
  /\ size (getVal (snd (new_substr rhs pos count a))) = n
  /\ getAlloc (snd (new_substr rhs pos count a)) = a
  /\ chars (snd (new_substr rhs pos count a)) !! i = Some (mjoin (buffer rhs !! i)).
Proof.
  intros Hpos Hsz n Hn Hi. pose proof kBufferSize_bounds as Hk.
  rewrite new_substr_unfold, init_substr_in_range by lia.
  rewrite wrap_small by lia. fold n.
  rewrite init_ptr_inline by (try reflexivity; lia).
  cbn [fst snd getVal getAlloc size].
  split; [reflexivity|]. split; [reflexivity|]. split; [reflexivity|].
  rewrite chars_inline.
  rewrite lookup_take_lt by lia.
  rewrite put_cell_lookup_ne by lia.
  apply move_cells_lookup_lt; [exact Hi|].
  rewrite initEmpty_state. cbn [snd getVal data buf_cells].
  rewrite length_put_cell. unfold allocVal, StringValue_new. cbn [getVal data buf_cells].
  rewrite length_replicate. lia.
Qed.

(** What the fill primitive does when it runs after [initEmpty], as the
    copy primitive does in the other constructors: for a count below
    [kBufferSize] no allocator call is made and the inline buffer holds the
    characters and the sentinel. *)
Lemma init_fill_after_initEmpty (count ch : Z) (a : Alloc) :
  0 <= count < kBufferSize ->
  let r := (initEmpty ;; init_fill count ch) (allocVal a) in
  fst r = Ret tt
  /\ getAlloc (snd r) = a
  /\ size (getVal (snd r)) = count
  /\ repr_agrees (getVal (snd r)) = true
  /\ (forall i : nat, Z.of_nat i < count -> buffer (snd r) !! i = Some (Some ch))
  /\ buffer (snd r) !! Z.to_nat count = Some (Some sentinel).
Proof.
  intros Hc. cbv zeta. pose proof kBufferSize_bounds as Hk.
  unfold bind at 1 2 3 4 5 6. rewrite initEmpty_state.
  rewrite init_fill_inline by (try reflexivity; cbn; lia).
  cbn [fst snd getAlloc getVal size allocVal StringValue_new data buf_cells].
  unfold repr_agrees. rewrite isShortString_inline. rewrite buffer_inline.
  repeat split.
  - intros i Hi. rewrite put_cell_lookup_ne by lia.
    apply fill_cells_lookup_lt; [exact Hi|].
    rewrite length_put_cell, length_replicate. lia.
  - apply put_cell_lookup_eq; [lia|].
    rewrite length_fill_cells, length_put_cell, length_replicate. lia.
Qed.

(** Fill construction with a count of at least [kBufferSize] that returns:
    the heap block is the buffer, it holds [ch] below [count] and the
    sentinel at [count], and discriminant and union agree. *)
Lemma new_fill_heap (count ch : Z) (a : Alloc) :
  kBufferSize <= count ->
  fst (new_fill count ch a) = Ret tt ->
  size (getVal (snd (new_fill count ch a))) = count
  /\ repr_agrees (getVal (snd (new_fill count ch a))) = true
  /\ (forall i : nat, Z.of_nat i < count ->
        buffer (snd (new_fill count ch a)) !! i = Some (Some ch))
  /\ buffer (snd (new_fill count ch a)) !! Z.to_nat count = Some (Some sentinel).
Proof.
  intros Hk. pose proof kBufferSize_bounds as Hb. pose proof max_size_bounds as Hm.
  pose proof max_size_lt_modulus as Hmod.
  unfold new_fill. rewrite init_fill_heap by (cbn; lia).
  destruct (Z.le_gt_cases max_size count) as [Hge|Hlt].
  { rewrite reallocAndAssign_too_long by exact Hge. discriminate. }
  destruct (capacityGrowth_covers count (allocVal a)) as (r & Hr & Hrk & Hmax);
    [cbn; lia | exact Hlt |].
  destruct (Z.le_gt_cases (wrap (r + 1)) (room (getAlloc (allocVal a)))) as [Hroom|Hroom].
  2:{ rewrite (reallocAndAssign_bad_alloc count r _ _ Hlt Hr Hroom). discriminate. }
  rewrite (reallocAndAssign_returns_with count r _ _ _
             (fill_writer_store ch _ count _) Hlt Hr Hroom).
  intros _. unfold after_realloc, before_writer.
  cbn [getAlloc getVal allocVal StringValue_new capacity data fst snd size
       blocks fresh room trace].
  destruct (Z.leb_spec kBufferSize 0); [lia|].
  unfold repr_agrees, buffer, getPtr, isShortString, inline_active.
  cbn [getAlloc getVal capacity data data_ptr load blocks].
  destruct (Z.ltb_spec r kBufferSize); [lia|].
  unfold load. cbn [getAlloc blocks].
  rewrite lookup_alter_eq, lookup_insert_eq. cbn [fmap option_fmap option_map default].
  rewrite wrap_small by lia.
  split; [reflexivity|]. split; [reflexivity|]. split.
  - intros i Hi. unfold id, compose. rewrite put_cell_lookup_ne by lia.
    apply fill_cells_lookup_lt; [exact Hi|]. rewrite length_replicate. lia.
  - unfold id, compose. apply put_cell_lookup_eq; [lia|].
    rewrite length_fill_cells, length_replicate. lia.
Qed.

End Constructors.

(** *** The fill constructor of [string] for 1 to 15 characters *)

Lemma lor_15 (count : Z) : 0 <= count <= 15 -> Z.lor count 15 = 15.
Proof.
  intros H.
  assert (E : count = 0 \/ count = 1 \/ count = 2 \/ count = 3 \/ count = 4 \/ count = 5
              \/ count = 6 \/ count = 7 \/ count = 8 \/ count = 9 \/ count = 10
              \/ count = 11 \/ count = 12 \/ count = 13 \/ count = 14 \/ count = 15)
    by lia.
  repeat (destruct E as [->|E]; [reflexivity|]). subst count. reflexivity.
Qed.

(** [basic_string<char>(count, ch)] with [1 <= count <= 15] on an allocator
    with room for 16 elements: [init] finds capacity 0, so the request goes to
    [reallocAndAssign], which allocates 16 elements, sets the capacity to 15
    and stores the heap pointer. *)
Lemma new_fill_short_char (count ch : Z) (a : Alloc) :
  1 <= count <= 15 ->
  16 <= room a ->
  new_fill (C:=char) count ch a =
    (Ret tt,
     MkString
       (MkAlloc (alter (put_cell count sentinel ∘ fill_cells count ch) (fresh a)
                   (<[fresh a := replicate 16 None]> (blocks a)))
                (fresh a + 16) (room a - 16)
                ((trace a ++ [Allocate 16 (Some (fresh a))])
                   ++ [Written (HeapBlock (fresh a)) count]))
       (MkStringValue count 15 (Data_ptr (HeapBlock (fresh a))))).
Proof.
  intros Hc Hroom. unfold new_fill.
  rewrite init_fill_heap by (cbn; lia).
  assert (Hg : capacityGrowth (C:=char) count (allocVal (C:=char) a)
               = (Ret 15, allocVal (C:=char) a)).
  { rewrite capacityGrowth_value by (cbn; vm_compute; split; discriminate).
    change (kBufferMask (C:=char)) with 15. rewrite lor_15 by lia. reflexivity. }
  rewrite (reallocAndAssign_returns_with (C:=char) count 15 _ _ _
             (fill_writer_store (C:=char) ch _ count _)).
  - reflexivity.
  - change (max_size (C:=char)) with 9223372036854775807. lia.
  - exact Hg.
  - change (wrap (15 + 1)) with 16. exact Hroom.
Qed.

(** For every such count the discriminant disagrees with the union, one
    [allocate] call has been made, the buffer that [getPtr()] names holds no
    character, and the destructor releases nothing. *)
Lemma new_fill_short_char_defect (count ch : Z) (a : Alloc) :
  1 <= count <= 15 ->
  16 <= room a ->
  let s := snd (new_fill (C:=char) count ch a) in
  repr_agrees (C:=char) (getVal s) = false
  /\ allocations (trace (getAlloc s)) = S (allocations (trace a))
  /\ buffer (C:=char) s = replicate 16 None
  /\ deallocations (trace (getAlloc (snd (destroy (C:=char) s))))
     = deallocations (trace a)
  /\ is_Some (blocks (getAlloc (snd (destroy (C:=char) s))) !! fresh a).
Proof.
  intros Hc Hroom. cbv zeta. rewrite new_fill_short_char by assumption.
  cbn [snd getVal getAlloc trace].
  split; [reflexivity|].
  split; [rewrite !allocations_app; cbn; lia|].
  split; [reflexivity|].
  unfold destroy. rewrite tidy_short by reflexivity. rewrite initEmpty_state.
  cbn [snd getAlloc trace blocks].
  split; [rewrite !deallocations_app; cbn; lia|].
  rewrite lookup_alter_is_Some, lookup_insert_is_Some'. auto.
Qed.

(** ** The properties at concrete strings *)

Lemma hello_world_chars :
  chars (C:=char) hello_world = text "hello world"
  /\ size (getVal hello_world) = 11
  /\ buffer (C:=char) hello_world = literal "hello world" ++ replicate 4 (Some 0).
Proof. vm_compute. repeat split; reflexivity. Qed.

(** C1 (fails on the code): [construct(s, pos, count)] should yield the
    characters of [s] from index [pos].  [init(rhs, pos, count)] passes
    [rhs.getVal().getPtr()] to the copy primitive without adding [pos], so the
    copy starts at index 0: for ["hello world"], [pos = 6], [count = 5] the
    result is ["hello"] and not ["world"].  The two boundary cases of the
    claim hold: [pos = 11] gives the empty string and [pos = 12] throws. *)
Theorem C1_substring_copies_from_start :
  let r := new_substr (C:=char) hello_world 6 5 (fresh_alloc 1000) in
  fst r = Ret tt
  /\ chars (C:=char) (snd r) = text "hello"
  /\ chars (C:=char) (snd r) <> text "world"
  /\ chars (C:=char) (snd (new_substr (C:=char) hello_world 11 5 (fresh_alloc 1000))) = []
  /\ fst (new_substr (C:=char) hello_world 12 5 (fresh_alloc 1000)) = Throw OutOfRange.
Proof. vm_compute. repeat split; try reflexivity. discriminate. Qed.

(** The copy primitive itself is sound: handed the cells from index 6 on, it
    produces ["world"]. *)
Lemma copy_from_offset_6 :
  let r := new_ptr (C:=char) (drop 6 (buffer (C:=char) hello_world)) 5 (fresh_alloc 1000) in
  fst r = Ret tt /\ chars (C:=char) (snd r) = text "world".
Proof. vm_compute. split; reflexivity. Qed.

(** What [basic_string<char>(5, 'a')] leaves behind. *)
Lemma five_a_state :
  fst five_a = Ret tt
  /\ getVal (snd five_a) = MkStringValue 5 15 (Data_ptr (HeapBlock 4096))
  /\ trace (getAlloc (snd five_a)) = [Allocate 16 (Some 4096); Written (HeapBlock 4096) 5]
  /\ blocks (getAlloc (snd five_a)) !! 4096
     = Some (replicate 5 (Some 97) ++ [Some 0] ++ replicate 10 None).
Proof. vm_compute. repeat split; reflexivity. Qed.

(** The constructor from a pointer, which starts with [initEmpty], on the
    same five characters: no allocator call, the inline buffer holds them. *)
Lemma five_a_from_pointer :
  let r := new_ptr (C:=char) (text "aaaaa") 5 (fresh_alloc 1000) in
  fst r = Ret tt
  /\ trace (getAlloc (snd r)) = []
  /\ repr_agrees (C:=char) (getVal (snd r)) = true
  /\ chars (C:=char) (snd r) = text "aaaaa"
  /\ buffer (C:=char) (snd r) !! 5%nat = Some (Some sentinel).
Proof. vm_compute. repeat split; reflexivity. Qed.

(** C2 (fails on the code): the discriminant derived from [capacity] should
    agree with the active storage in every reachable state.  The fill
    constructor does not call [initEmpty], so [init] runs with capacity 0 and
    sends every [count >= 1] to [reallocAndAssign]; for [count = 5] the new
    capacity is [5 | 15 = 15 < kBufferSize = 16] while the heap pointer is the
    member that was stored: [isShortString()] is true and the inline array is
    not the active member. *)
Theorem C2_fill_breaks_discriminant :
  fst five_a = Ret tt
  /\ capacity (getVal (snd five_a)) = 15
  /\ kBufferSize (C:=char) = 16
  /\ isShortString (C:=char) (getVal (snd five_a)) = true
  /\ inline_active (getVal (snd five_a)) = false
  /\ data (getVal (snd five_a)) = Data_ptr (HeapBlock 4096)
  /\ repr_agrees (C:=char) (getVal (snd five_a)) = false.
Proof. vm_compute. repeat split; reflexivity. Qed.

(** C3 (fails on the code): constructing with [count < kBufferSize] characters
    should not call [allocate].  [basic_string<char>(5, 'a')] calls it once,
    for 16 elements, although [5 < kBufferSize = 16]. *)
Theorem C3_fill_allocates_below_inline_capacity :
  5 < kBufferSize (C:=char)
  /\ fst five_a = Ret tt
  /\ allocations (trace (fresh_alloc 1000)) = 0%nat
  /\ allocations (trace (getAlloc (snd five_a))) = 1%nat
  /\ trace (getAlloc (snd five_a)) = [Allocate 16 (Some 4096); Written (HeapBlock 4096) 5].
Proof. vm_compute. repeat split; reflexivity. Qed.

(** C4 (fails on the code): after fill construction the buffer should hold
    [ch] at every index below [count] and the sentinel at [count].  After
    [basic_string<char>(5, 'a')] the size is 5, but [getPtr()] answers
    [data.buf] (the capacity 15 is below [kBufferSize]) while the characters
    were written to the heap block: the cells of the buffer are the bytes of
    the stored pointer, and none of them is the code unit ['a'] or a written
    sentinel. *)
Theorem C4_fill_buffer_not_filled :
  5 < max_size (C:=char)
  /\ fst five_a = Ret tt
  /\ size (getVal (snd five_a)) = 5
  /\ getPtr (C:=char) (getVal (snd five_a)) = InlineBuf
  /\ buffer (C:=char) (snd five_a) = replicate 16 None
  /\ buffer (C:=char) (snd five_a) !! 0%nat <> Some (Some 97)
  /\ buffer (C:=char) (snd five_a) !! 5%nat <> Some (Some sentinel).
Proof. vm_compute. repeat split; try reflexivity; discriminate. Qed.

(** C8 (fails on the code): over a construct-then-destroy lifetime every
    [allocate] should be matched by a [deallocate].  After
    [basic_string<char>(5, 'a')] the destructor finds [isShortString()] true
    (capacity 15), skips [deallocate] and overwrites the stored pointer in
    [initEmpty]: the block of 16 elements stays allocated and nothing refers
    to it any more. *)
Theorem C8_fill_then_destroy_leaks :
  let r := destroy (C:=char) (snd five_a) in
  fst r = Ret tt
  /\ trace (getAlloc (snd r)) = [Allocate 16 (Some 4096); Written (HeapBlock 4096) 5]
  /\ allocations (trace (getAlloc (snd r))) = 1%nat
  /\ deallocations (trace (getAlloc (snd r))) = 0%nat
  /\ is_Some (blocks (getAlloc (snd r)) !! 4096)
  /\ inline_active (getVal (snd r)) = true.
Proof. vm_compute. repeat split; try reflexivity. eexists; reflexivity. Qed.

(** A lifetime that does balance: [basic_string<char>(20, 'a')] allocates 32
    elements and its destructor returns the same block with the same size;
    the inline string ["hello world"] deallocates nothing. *)
Lemma twenty_a_lifetime_balanced :
  trace (getAlloc (snd (destroy (C:=char) twenty_a)))
  = [Allocate 32 (Some 4096); Written (HeapBlock 4096) 20; Deallocate (HeapBlock 4096) 32]
  /\ blocks (getAlloc (snd (destroy (C:=char) twenty_a))) !! 4096 = None
  /\ trace (getAlloc (snd (destroy (C:=char) hello_world))) = [].
Proof. vm_compute. repeat split; reflexivity. Qed.

(** * Further properties of the code *)

(** ** Cursor arithmetic and ordering *)

(** X1: for both cursor kinds [-=] undoes [+=] and [+=] undoes [-=] with the
    same offset, whatever its sign. *)
Theorem X1_offset_assign_inverse (p : Iter.StringConstIterator)
    (q : Iter.StringIterator) (n : Z) :
  Iter.Const.sub_assign (Iter.Const.add_assign p n) n = p
  /\ Iter.Const.add_assign (Iter.Const.sub_assign p n) n = p
  /\ Iter.Mut.sub_assign (Iter.Mut.add_assign q n) n = q
  /\ Iter.Mut.add_assign (Iter.Mut.sub_assign q n) n = q.
Proof.
  destruct p as [a], q as [[b]].
  unfold Iter.Mut.sub_assign, Iter.Mut.add_assign, Iter.Const.sub_assign,
    Iter.Const.add_assign. cbn.
  repeat split; do 2 f_equal; lia.
Qed.

(** X2: offset and distance are inverse to each other: the distance from [p]
    to [p + n] is [n], adding to [p] the distance from [p] to [q] gives [q],
    [p - n] is [p + (-n)], the distance is antisymmetric, and [p[n]] reads
    the cell that [*(p + n)] reads.  For the mutable kind [q + n] is the
    read-only cursor at the address of [q] plus [n], and the distance from
    [q] to [q - n] is [-n]. *)
Theorem X2_offset_distance_round_trip (p q : Iter.StringConstIterator)
    (m : Iter.StringIterator) (n : Z) (mem : Z -> cell) :
  Iter.Const.diff (Cursor.const_plus p n) p = n
  /\ Cursor.const_plus p (Iter.Const.diff q p) = q
  /\ Cursor.const_minus p n = Cursor.const_plus p (- n)
  /\ Iter.Const.diff p q = - Iter.Const.diff q p
  /\ Cursor.index mem p n = Cursor.deref mem (Cursor.const_plus p n)
  /\ Iter.ptr (Cursor.mut_plus m n) = Iter.ptr (Iter.Base m) + n
  /\ Iter.Mut.diff (Cursor.mut_minus m n) m = - n.
Proof.
  destruct p as [a], q as [b], m as [[c]].
  unfold Cursor.const_plus, Cursor.const_minus, Cursor.mut_plus, Cursor.mut_minus,
    Cursor.index, Cursor.deref, Iter.Const.diff, Iter.Mut.diff, Iter.Mut.sub_assign,
    Iter.Const.add_assign, Iter.Const.sub_assign. cbn.
  repeat split; try lia; f_equal; lia.
Qed.

(** X3: the six comparison operators describe one strict total order on the
    wrapped addresses: [==] holds exactly for equal cursors, exactly one of
    [<], [==], [>] holds, [<] is transitive, [!=], [<=] and [>=] are the
    negations of [==], [>] and [<], and [p < q] holds exactly when the
    distance [q - p] is positive. *)
Theorem X3_comparisons_total_order (p q r : Iter.StringConstIterator) :
  (Iter.Const.eq p q = true <-> p = q)
  /\ (Iter.Const.lt p q = true <-> 0 < Iter.Const.diff q p)
  /\ (Iter.Const.lt p q = true /\ Iter.Const.eq p q = false /\ Cursor.gt p q = false
      \/ Iter.Const.lt p q = false /\ Iter.Const.eq p q = true /\ Cursor.gt p q = false
      \/ Iter.Const.lt p q = false /\ Iter.Const.eq p q = false /\ Cursor.gt p q = true)
  /\ (Iter.Const.lt p q = true -> Iter.Const.lt q r = true -> Iter.Const.lt p r = true)
  /\ Cursor.ne p q = negb (Iter.Const.eq p q)
  /\ (Cursor.le p q = true <-> Iter.Const.lt p q = true \/ Iter.Const.eq p q = true)
  /\ (Cursor.ge p q = true <-> Cursor.gt p q = true \/ Iter.Const.eq p q = true).
Proof.
  destruct p as [a], q as [b], r as [c].
  unfold Cursor.ne, Cursor.le, Cursor.ge, Cursor.gt, Iter.Const.lt, Iter.Const.eq,
    Iter.Const.diff. cbn.
  destruct (Z.ltb_spec a b), (Z.ltb_spec b a), (Z.eqb_spec a b), (Z.ltb_spec b c),
    (Z.ltb_spec a c); cbn; try lia.
  all: repeat split; try (intros; subst; (lia || congruence || discriminate || auto)).
  all: try (intros E; injection E; lia).
  all: try (right; left; auto; fail).
  all: try (left; auto; fail).
  all: try (right; right; auto; fail).
  all: try (intros [?|?]; (congruence || lia)).
  all: auto.
Qed.

(** X4: [n] pre-increments, and [n] post-increments, leave the cursor where
    [+ n] puts it, for both cursor kinds. *)
Theorem X4_increments_add_up (p : Iter.StringConstIterator) (q : Iter.StringIterator)
    (n : nat) :
  Nat.iter n Iter.Const.pre_inc p = Cursor.const_plus p (Z.of_nat n)
  /\ Nat.iter n (fun c => snd (Cursor.const_post_inc c)) p = Cursor.const_plus p (Z.of_nat n)
  /\ Iter.Base (Nat.iter n Iter.Mut.pre_inc q) = Cursor.mut_plus q (Z.of_nat n)
  /\ Iter.Base (Nat.iter n (fun c => snd (Cursor.mut_post_inc c)) q)
     = Cursor.mut_plus q (Z.of_nat n).
Proof.
  unfold Cursor.mut_plus, Cursor.const_plus, Cursor.mut_post_inc, Cursor.const_post_inc.
  cbn [snd]. repeat split.
  - induction n as [|n IH].
    + destruct p. cbn. unfold Iter.Const.add_assign. cbn. f_equal. lia.
    + rewrite Nat.iter_succ, IH. unfold Iter.Const.pre_inc, Iter.Const.add_assign.
      cbn [Iter.ptr]. f_equal. lia.
  - induction n as [|n IH].
    + destruct p. cbn. unfold Iter.Const.add_assign. cbn. f_equal. lia.
    + rewrite Nat.iter_succ, IH. unfold Iter.Const.pre_inc, Iter.Const.add_assign.
      cbn [Iter.ptr]. f_equal. lia.
  - induction n as [|n IH].
    + destruct q as [[b]]. cbn. unfold Iter.Const.add_assign. cbn. f_equal. lia.
    + rewrite Nat.iter_succ. unfold Iter.Mut.pre_inc at 1. cbn [Iter.Base]. rewrite IH.
      unfold Iter.Const.pre_inc, Iter.Const.add_assign. cbn [Iter.ptr]. f_equal. lia.
  - induction n as [|n IH].
    + destruct q as [[b]]. cbn. unfold Iter.Const.add_assign. cbn. f_equal. lia.
    + rewrite Nat.iter_succ. unfold Iter.Mut.pre_inc at 1. cbn [Iter.Base]. rewrite IH.
      unfold Iter.Const.pre_inc, Iter.Const.add_assign. cbn [Iter.ptr]. f_equal. lia.
Qed.

(** ** Construction on the empty state *)

Section Construction.
Context {C : CharT}.

Lemma empty_string_state (a : Alloc) :
  empty_string a =
    MkString a
      (MkStringValue 0 (kBufferSize - 1)
         (Data_buf (put_cell 0 sentinel
                      (replicate (Z.to_nat kBufferSize) (Some sentinel))))).
Proof. reflexivity. Qed.

Lemma first_capacity_bounds (newSize : Z) :
  newSize < max_size -> newSize <= first_capacity newSize <= max_size.
Proof.
  intros Hlt. unfold first_capacity.
  pose proof (lor_lower_bound newSize kBufferMask (proj1 kBufferMask_bounds)).
  destruct (Z.ltb_spec max_size (Z.lor newSize kBufferMask)); lia.
Qed.

(** On a string of size 0 [capacityGrowth] returns [first_capacity]. *)
Lemma capacityGrowth_first (newSize : Z) (s : basic_string) :
  size (getVal s) = 0 -> 0 <= newSize ->
  capacityGrowth newSize s = (Ret (first_capacity newSize), s).
Proof.
  intros Hs Hn. pose proof max_size_bounds as Hm.
  rewrite capacityGrowth_value by (rewrite Hs; lia).
  rewrite Hs. unfold first_capacity. change (0 / 2) with 0.
  pose proof (lor_lower_bound newSize kBufferMask (proj1 kBufferMask_bounds)).
  destruct (Z.ltb_spec max_size (Z.lor newSize kBufferMask)); [reflexivity|].
  destruct (Z.ltb_spec (max_size - 0) 0); [lia|].
  rewrite Z.max_l by lia. reflexivity.
Qed.

(** The first pass through [reallocAndAssign], on a short string of size 0:
    it returns [heap_string] when the allocator has room, and throws with
    only the refused call recorded when it has not. *)
Lemma reallocAndAssign_first (newSize : Z) (func : pointer -> Z -> M unit)
    (f : list cell -> list cell) (s : basic_string) :
  (forall a s0, func (HeapBlock a) newSize s0 = store (HeapBlock a) f s0) ->
  size (getVal s) = 0 ->
  capacity (getVal s) < kBufferSize ->
  0 <= newSize < max_size ->
  first_capacity newSize + 1 <= room (getAlloc s) ->
  reallocAndAssign newSize func s
  = (Ret tt, heap_string (getAlloc s) newSize (first_capacity newSize) f).
Proof.
  intros Hf Hs Hcap Hn Hroom.
  pose proof (first_capacity_bounds newSize (proj2 Hn)) as Hr.
  pose proof max_size_lt_modulus as Hm.
  assert (Hw : wrap (first_capacity newSize + 1) = first_capacity newSize + 1)
    by (apply wrap_small; lia).
  rewrite (reallocAndAssign_returns_with newSize (first_capacity newSize) func f s);
    [| apply Hf | lia | apply capacityGrowth_first; [exact Hs | lia] | lia].
  f_equal. unfold after_realloc, before_writer, heap_string.
  destruct (Z.leb_spec kBufferSize (capacity (getVal s))); [lia|].
  cbn [getAlloc getVal blocks fresh room trace]. rewrite Hw.
  rewrite alter_insert_eq, Z.max_l by lia.
  rewrite <- app_assoc. reflexivity.
Qed.

Lemma reallocAndAssign_first_refused (newSize : Z) (func : pointer -> Z -> M unit)
    (s : basic_string) :
  size (getVal s) = 0 ->
  0 <= newSize < max_size ->
  room (getAlloc s) < first_capacity newSize + 1 ->
  reallocAndAssign newSize func s
  = (Throw BadAlloc,
     MkString (MkAlloc (blocks (getAlloc s)) (fresh (getAlloc s)) (room (getAlloc s))
                 (trace (getAlloc s) ++ [Allocate (first_capacity newSize + 1) None]))
              (getVal s)).
Proof.
  intros Hs Hn Hroom.
  pose proof (first_capacity_bounds newSize (proj2 Hn)) as Hr.
  pose proof max_size_lt_modulus as Hm.
  assert (Hw : wrap (first_capacity newSize + 1) = first_capacity newSize + 1)
    by (apply wrap_small; lia).
  rewrite (reallocAndAssign_bad_alloc newSize (first_capacity newSize) func s);
    [| lia | apply capacityGrowth_first; [exact Hs | lia] | lia].
  rewrite Hw. reflexivity.
Qed.

(** The buffer of [heap_string] is its block. *)
Lemma buffer_heap_string (a : Alloc) (newSize r : Z) (f : list cell -> list cell) :
  kBufferSize <= r ->
  buffer (heap_string a newSize r f) = f (replicate (Z.to_nat (r + 1)) None).
Proof.
  intros Hr. unfold buffer, getPtr, isShortString, heap_string.
  cbn [getVal capacity data data_ptr].
  destruct (Z.ltb_spec r kBufferSize); [lia|].
  unfold load. cbn [getAlloc blocks]. rewrite lookup_insert_eq. reflexivity.
Qed.

(** The four ways in which the copy primitive ends on the empty state. *)
Lemma init_ptr_empty_cases (str : list cell) (count : Z) (a : Alloc) :
  0 <= count ->
  (count < kBufferSize
   /\ init_ptr str count (empty_string a)
      = (Ret tt,
         MkString a
           (MkStringValue count (kBufferSize - 1)
              (Data_buf (put_cell count sentinel
                           (move_cells str count
                              (put_cell 0 sentinel
                                 (replicate (Z.to_nat kBufferSize) (Some sentinel)))))))))
  \/ (max_size <= count
      /\ init_ptr str count (empty_string a) = (Throw LengthError, empty_string a))
  \/ (kBufferSize <= count < max_size
      /\ room a < first_capacity count + 1
      /\ init_ptr str count (empty_string a)
         = (Throw BadAlloc,
            MkString (MkAlloc (blocks a) (fresh a) (room a)
                        (trace a ++ [Allocate (first_capacity count + 1) None]))
                     (getVal (empty_string a))))
  \/ (kBufferSize <= count < max_size
      /\ first_capacity count + 1 <= room a
      /\ init_ptr str count (empty_string a)
         = (Ret tt, heap_string a count (first_capacity count)
                      (put_cell count sentinel ∘ move_cells str count))).
Proof.
  intros Hc. pose proof kBufferSize_bounds as Hk. pose proof max_size_bounds as Hm.
  destruct (Z.lt_ge_cases count kBufferSize) as [Hlt|Hge].
  { left. split; [exact Hlt|].
    rewrite init_ptr_inline by (try reflexivity; lia). reflexivity. }
  right. rewrite init_ptr_heap by (rewrite empty_string_state; cbn; lia).
  destruct (Z.le_gt_cases max_size count) as [Hmax|Hmax].
  { left. split; [exact Hmax|]. apply reallocAndAssign_too_long. exact Hmax. }
  right.
  destruct (Z.lt_ge_cases (room a) (first_capacity count + 1)) as [Hroom|Hroom].
  - left. split; [lia|]. split; [exact Hroom|].
    apply (reallocAndAssign_first_refused count _ (empty_string a)); [reflexivity | lia | exact Hroom].
  - right. split; [lia|]. split; [exact Hroom|].
    apply (reallocAndAssign_first count _ _ (empty_string a));
      [intros; apply copy_writer_store | reflexivity | cbn; lia | lia | exact Hroom].
Qed.

(** Whatever the string, a call of [reallocAndAssign] that throws has thrown
    the length error or the allocator's error, and it leaves the record and
    the allocator's blocks, room and next address as they were. *)
Lemma reallocAndAssign_throw (newSize : Z) (func : pointer -> Z -> M unit)
    (s : basic_string) (e : exn) :
  raw_writer func ->
  fst (reallocAndAssign newSize func s) = Throw e ->
  (e = LengthError \/ e = BadAlloc)
  /\ getVal (snd (reallocAndAssign newSize func s)) = getVal s
  /\ blocks (getAlloc (snd (reallocAndAssign newSize func s))) = blocks (getAlloc s)
  /\ room (getAlloc (snd (reallocAndAssign newSize func s))) = room (getAlloc s)
  /\ fresh (getAlloc (snd (reallocAndAssign newSize func s))) = fresh (getAlloc s).
Proof.
  intros Hw. destruct (Z.le_gt_cases max_size newSize) as [Hge|Hlt].
  { rewrite reallocAndAssign_too_long by exact Hge. cbn. intros [= <-]. auto. }
  destruct (capacityGrowth_pure newSize s) as [r Hr].
  destruct (Z.le_gt_cases (wrap (r + 1)) (room (getAlloc s))) as [Hroom|Hroom].
  - destruct (reallocAndAssign_returns newSize r func s Hw Hlt Hr Hroom) as [f ->].
    discriminate.
  - rewrite (reallocAndAssign_bad_alloc newSize r func s Hlt Hr Hroom).
    cbn. intros [= <-]. auto.
Qed.

Lemma init_ptr_throw (str : list cell) (count : Z) (a : Alloc) (e : exn) :
  fst (init_ptr str count (empty_string a)) = Throw e ->
  (e = LengthError \/ e = BadAlloc)
  /\ blocks (getAlloc (snd (init_ptr str count (empty_string a)))) = blocks a
  /\ room (getAlloc (snd (init_ptr str count (empty_string a)))) = room a
  /\ fresh (getAlloc (snd (init_ptr str count (empty_string a)))) = fresh a.
Proof.
  pose proof kBufferSize_bounds as Hk.
  destruct (Z.le_gt_cases count (kBufferSize - 1)) as [Hle|Hgt].
  { rewrite init_ptr_inline by (try reflexivity; lia). discriminate. }
  rewrite init_ptr_heap by (rewrite empty_string_state; cbn; lia).
  intros He.
  destruct (reallocAndAssign_throw count _ _ e (copy_writer_raw str) He)
    as (H1 & _ & H2 & H3 & H4).
  auto.
Qed.

(** The constructors enter [reallocAndAssign], and with it
    [capacityGrowth], on the strings of [growth_site] only: the fill
    constructor on the default-constructed record, the others on the state
    [initEmpty] has left; with a count within the capacity they do not enter
    it at all. *)
Lemma constructors_enter_at_growth_sites (a : Alloc) :
  growth_site (allocVal a)
  /\ growth_site (empty_string a)
  /\ (forall count ch,
        0 < count ->
        new_fill count ch a = reallocAndAssign count (fill_writer ch) (allocVal a))
  /\ (forall str count,
        kBufferSize <= count ->
        new_ptr str count a = reallocAndAssign count (copy_writer str) (empty_string a)).
Proof.
  split; [constructor|]. split; [constructor|]. split.
  - intros count ch Hc. unfold new_fill. apply init_fill_heap. cbn. lia.
  - intros str count Hc.
    change (new_ptr str count a) with (init_ptr str count (empty_string a)).
    apply init_ptr_heap. rewrite empty_string_state. cbn. lia.
Qed.

(** *** Written prefixes *)

Lemma copied_prefix (str cells : list cell) (count : Z) :
  0 <= count ->
  (Z.to_nat count <= length str)%nat ->
  (Z.to_nat count <= length cells)%nat ->
  take (Z.to_nat count) (put_cell count sentinel (move_cells str count cells))
  = take (Z.to_nat count) str.
Proof.
  intros Hc Hs Hl. apply list_eq. intros i.
  destruct (Nat.lt_ge_cases i (Z.to_nat count)) as [Hi|Hi].
  - rewrite !lookup_take_lt by exact Hi.
    rewrite put_cell_lookup_ne by lia.
    rewrite move_cells_lookup_lt by lia.
    destruct (lookup_lt_is_Some_2 str i ltac:(lia)) as [c ->]. reflexivity.
  - rewrite !lookup_take_ge by exact Hi. reflexivity.
Qed.

Lemma filled_prefix (cells : list cell) (count ch : Z) :
  0 <= count ->
  (Z.to_nat count <= length cells)%nat ->
  take (Z.to_nat count) (put_cell count sentinel (fill_cells count ch cells))
  = replicate (Z.to_nat count) (Some ch).
Proof.
  intros Hc Hl. apply list_eq. intros i.
  destruct (Nat.lt_ge_cases i (Z.to_nat count)) as [Hi|Hi].
  - rewrite lookup_take_lt by exact Hi.
    rewrite put_cell_lookup_ne by lia.
    rewrite fill_cells_lookup_lt by lia.
    rewrite lookup_replicate_2 by exact Hi. reflexivity.
  - rewrite lookup_take_ge by exact Hi.
    symmetry. apply lookup_replicate_None. exact Hi.
Qed.

Lemma written_sentinel (g : list cell -> list cell) (cells : list cell) (count : Z) :
  0 <= count ->
  (Z.to_nat count < length (g cells))%nat ->
  put_cell count sentinel (g cells) !! Z.to_nat count = Some (Some sentinel).
Proof. intros Hc Hl. apply put_cell_lookup_eq; [lia | exact Hl]. Qed.

(** *** The invariants on the two shapes a constructor leaves *)

Lemma well_formed_inline (a : Alloc) (n : Z) (cells : list cell) :
  0 <= n < kBufferSize ->
  length cells = Z.to_nat kBufferSize ->
  cells !! Z.to_nat n = Some (Some sentinel) ->
  well_formed (MkString a (MkStringValue n (kBufferSize - 1) (Data_buf cells))).
Proof.
  intros Hn Hlen Hs. pose proof kBufferSize_bounds as Hk. pose proof max_size_bounds as Hm.
  unfold well_formed. rewrite buffer_inline. cbn [getVal size capacity data buf_cells].
  unfold repr_agrees. rewrite isShortString_inline. unfold owns_storage.
  cbn [inline_active getVal data]. rewrite Hlen.
  repeat split; try lia; auto.
Qed.

Lemma well_formed_heap_string (a : Alloc) (n r : Z) (g : list cell -> list cell) :
  kBufferSize <= r ->
  0 <= n <= r ->
  r <= max_size ->
  (forall l, length (g l) = length l) ->
  well_formed (heap_string a n r (put_cell n sentinel ∘ g)).
Proof.
  intros Hk Hn Hr Hg. pose proof kBufferSize_bounds as Hb.
  unfold well_formed. rewrite buffer_heap_string by exact Hk.
  unfold heap_string, repr_agrees, isShortString, inline_active, owns_storage.
  cbn [getVal getAlloc size capacity data buf_cells blocks].
  destruct (Z.ltb_spec r kBufferSize); [lia|].
  unfold compose. rewrite length_put_cell, Hg, !length_replicate.
  repeat split; try lia.
  - apply written_sentinel; [lia|]. rewrite Hg, length_replicate. lia.
  - rewrite lookup_insert_eq. eexists; reflexivity.
Qed.



Lemma init_ptr_empty_well_formed (str : list cell) (count : Z) (a : Alloc) :
  0 <= count ->
  fst (init_ptr str count (empty_string a)) = Ret tt ->
  well_formed (snd (init_ptr str count (empty_string a)))
  /\ size (getVal (snd (init_ptr str count (empty_string a)))) = count.
Proof.
  intros Hc. pose proof kBufferSize_bounds as Hk.
  destruct (init_ptr_empty_cases str count a Hc)
    as [(Hlt & ->)|[(_ & ->)|[(_ & _ & ->)|(Hge & Hroom & ->)]]];
    try discriminate; intros _; cbn [snd].
  - split; [|reflexivity]. apply well_formed_inline; [lia | |].
    + rewrite length_put_cell, length_move_cells, length_put_cell, length_replicate.
      reflexivity.
    + apply written_sentinel; [lia|].
      rewrite length_move_cells, length_put_cell, length_replicate. lia.
  - pose proof (first_capacity_bounds count (proj2 Hge)).
    split; [|reflexivity].
    apply well_formed_heap_string; [lia | lia | lia | apply length_move_cells].
Qed.

(** Round trip of the copy primitive on the empty state. *)
Lemma init_ptr_empty_chars (str : list cell) (count : Z) (a : Alloc) :
  0 <= count <= Z.of_nat (length str) ->
  fst (init_ptr str count (empty_string a)) = Ret tt ->
  chars (snd (init_ptr str count (empty_string a))) = take (Z.to_nat count) str.
Proof.
  intros Hc. pose proof kBufferSize_bounds as Hk.
  destruct (init_ptr_empty_cases str count a (proj1 Hc))
    as [(Hlt & ->)|[(_ & ->)|[(_ & _ & ->)|(Hge & Hroom & ->)]]];
    try discriminate; intros _; cbn [snd].
  - rewrite chars_inline. apply copied_prefix; [lia | lia |].
    rewrite length_put_cell, length_replicate. lia.
  - pose proof (first_capacity_bounds count (proj2 Hge)).
    unfold chars. rewrite buffer_heap_string by lia.
    unfold heap_string. cbn [getVal size]. unfold compose.
    apply copied_prefix; [lia | lia |]. rewrite length_replicate. lia.
Qed.

(** ** Sizes *)

(** X5: for every character width [max_size()] is positive, does not exceed
    the largest [difference_type], and [max_size() + 1] elements (a buffer of
    the largest capacity with its sentinel) occupy no more bytes than the
    largest [size_type]. *)
Theorem X5_max_size_byte_count :
  0 < max_size
  /\ max_size <= ptrdiff_max
  /\ (max_size + 1) * sizeof_value_type <= npos.
Proof.
  pose proof max_size_bounds as Hm.
  pose proof sizeof_value_type_pos as Hp. pose proof sizeof_value_type_assert as Ha.
  split; [lia|]. split; [lia|].
  unfold max_size in *. change npos with 18446744073709551615.
  change (wrap (-1)) with 18446744073709551615 in *.
  assert (2 ^ 60 - 1 <= 18446744073709551615 / sizeof_value_type)
    by (apply Z.div_le_lower_bound; lia).
  assert (18446744073709551615 / sizeof_value_type <= 18446744073709551615)
    by (apply Z.div_le_upper_bound; nia).
  rewrite wrap_small in * by (unfold size_type_modulus; lia).
  assert (sizeof_value_type * (18446744073709551615 / sizeof_value_type)
          <= 18446744073709551615) by (apply Z.mul_div_le; lia).
  unfold ptrdiff_max in *. nia.
Qed.

(** ** Construction from a pointer *)


(** X7: construction from a pointer with a count below [kBufferSize] always
    returns, makes no allocator call (the allocator is the one passed in,
    whatever room it has) and leaves the capacity [kBufferSize - 1]. *)
Theorem X7_pointer_short_no_allocation (str : list cell) (count : Z) (a : Alloc) :
  0 <= count < kBufferSize ->
  fst (new_ptr str count a) = Ret tt
  /\ getAlloc (snd (new_ptr str count a)) = a
  /\ size (getVal (snd (new_ptr str count a))) = count
  /\ capacity (getVal (snd (new_ptr str count a))) = kBufferSize - 1.
Proof.
  intros Hc. change (new_ptr str count a) with (init_ptr str count (empty_string a)).
  pose proof max_size_bounds as Hm. pose proof kBufferSize_bounds as Hk.
  destruct (init_ptr_empty_cases str count a (proj1 Hc))
    as [(Hlt & ->)|[(? & _)|[(? & _)|(? & _)]]]; try lia.
  repeat split.
Qed.

(** X8: construction from a pointer with [kBufferSize <= count < max_size()]
    makes exactly one allocator call, for [capacity + 1] elements, where the
    capacity is [count | kBufferMask], or [max_size()] if that is smaller.
    When the allocator has that room, the constructor returns with the heap
    pointer stored and a block of [capacity + 1] cells; when it has not, the
    constructor throws the allocator's error and no block is live that was
    not before. *)
Theorem X8_pointer_long_one_allocation (str : list cell) (count : Z) (a : Alloc) :
  kBufferSize <= count < max_size ->
  let cap := first_capacity count in
  let r := new_ptr str count a in
  count <= cap <= max_size
  /\ (Z.lor count kBufferMask <= max_size -> cap = Z.lor count kBufferMask)
  /\ (cap + 1 <= room a ->
      fst r = Ret tt
      /\ capacity (getVal (snd r)) = cap
      /\ data (getVal (snd r)) = Data_ptr (HeapBlock (fresh a))
      /\ trace (getAlloc (snd r))
         = trace a ++ [Allocate (cap + 1) (Some (fresh a));
                       Written (HeapBlock (fresh a)) count]
      /\ Z.of_nat (length (buffer (snd r))) = cap + 1)
  /\ (room a < cap + 1 ->
      fst r = Throw BadAlloc
      /\ trace (getAlloc (snd r)) = trace a ++ [Allocate (cap + 1) None]
      /\ blocks (getAlloc (snd r)) = blocks a).
Proof.
  intros Hc. cbv zeta.
  change (new_ptr str count a) with (init_ptr str count (empty_string a)).
  pose proof kBufferSize_bounds as Hk.
  pose proof (first_capacity_bounds count (proj2 Hc)) as Hr.
  split; [exact Hr|]. split.
  { intros Hl. unfold first_capacity.
    destruct (Z.ltb_spec max_size (Z.lor count kBufferMask)); [lia | reflexivity]. }
  split.
  - intros Hroom.
    destruct (init_ptr_empty_cases str count a ltac:(lia))
      as [(? & _)|[(? & _)|[(_ & ? & _)|(_ & _ & ->)]]]; try lia.
    cbn [fst snd]. rewrite buffer_heap_string by lia.
    unfold heap_string, compose. cbn [getVal getAlloc capacity data trace].
    rewrite length_put_cell, length_move_cells, length_replicate.
    repeat split; try reflexivity. lia.
  - intros Hroom.
    destruct (init_ptr_empty_cases str count a ltac:(lia))
      as [(? & _)|[(? & _)|[(_ & _ & ->)|(_ & ? & _)]]]; try lia.
    cbn [fst snd getAlloc trace blocks]. repeat split.
Qed.


(** ** Destruction *)

Lemma put_cell_idempotent (idx ch : Z) (cells : list cell) :
  put_cell idx ch (put_cell idx ch cells) = put_cell idx ch cells.
Proof.
  apply list_eq. intros i. unfold put_cell. rewrite !list_lookup_imap.
  destruct (cells !! i) as [c|]; [cbn | reflexivity].
  destruct (Z.eqb_spec (Z.of_nat i) idx); reflexivity.
Qed.

(** The destructor on the string that one pass through [reallocAndAssign]
    has left. *)
Lemma tidy_heap_string (a : Alloc) (n r : Z) (f : list cell -> list cell) :
  kBufferSize <= r <= max_size ->
  tidy (heap_string a n r f)
  = (Ret tt,
     MkString
       (MkAlloc (delete (fresh a) (blocks a)) (fresh a + (r + 1)) (room a)
                (trace a ++ [Allocate (r + 1) (Some (fresh a));
                             Written (HeapBlock (fresh a)) n;
                             Deallocate (HeapBlock (fresh a)) (r + 1)]))
       (MkStringValue 0 (kBufferSize - 1)
          (Data_buf (put_cell 0 sentinel (replicate (Z.to_nat kBufferSize) None))))).
Proof.
  intros Hr. pose proof max_size_lt_modulus as Hm. pose proof kBufferSize_bounds as Hk.
  unfold tidy. unfold bind at 1. unfold read at 1.
  assert (Hshort : isShortString (getVal (heap_string a n r f)) = false).
  { unfold isShortString, heap_string. cbn [getVal capacity].
    destruct (Z.ltb_spec r kBufferSize); [lia | reflexivity]. }
  rewrite Hshort. cbn [negb].
  unfold bind at 1. unfold bind at 1. unfold read at 1.
  unfold getPtr. rewrite Hshort.
  unfold bind at 1. unfold read at 1.
  unfold heap_string at 1 2. cbn [getVal data data_ptr capacity].
  rewrite wrap_small by lia.
  unfold deallocate, heap_string. cbn [getAlloc getVal blocks fresh room trace].
  rewrite lookup_insert_eq.
  destruct (decide (is_Some (Some (f (replicate (Z.to_nat (r + 1)) None)))))
    as [_|Hn]; [|contradiction Hn; eexists; reflexivity].
  rewrite initEmpty_state. cbn [getAlloc getVal data buf_cells].
  rewrite delete_insert_eq, <- app_assoc.
  do 3 f_equal. lia.
Qed.

(** X10: the destructor of a string that satisfies the invariants returns,
    leaves the empty short string (which satisfies them again), and calls
    [deallocate] exactly when the string was on the heap: once, with the
    stored pointer and [capacity + 1]. *)
Theorem X10_destroy_resets (s : basic_string) :
  well_formed s ->
  fst (destroy s) = Ret tt
  /\ well_formed (snd (destroy s))
  /\ Str.empty (snd (destroy s)) = true
  /\ capacity (getVal (snd (destroy s))) = kBufferSize - 1
  /\ trace (getAlloc (snd (destroy s)))
     = trace (getAlloc s)
         ++ (if isShortString (getVal s) then []
             else [Deallocate (data_ptr (data (getVal s))) (capacity (getVal s) + 1)]).
Proof.
  intros (Hsz & Hcap & Hrep & Hlen & _ & _ & _).
  pose proof kBufferSize_bounds as Hk. pose proof max_size_lt_modulus as Hm.
  unfold destroy.
  assert (Htrace : trace (getAlloc (snd (tidy s)))
     = trace (getAlloc s)
         ++ (if isShortString (getVal s) then []
             else [Deallocate (data_ptr (data (getVal s))) (capacity (getVal s) + 1)])).
  { destruct (isShortString (getVal s)) eqn:Hshort.
    - rewrite tidy_short by exact Hshort. rewrite initEmpty_state.
      cbn [snd getAlloc]. rewrite app_nil_r. reflexivity.
    - unfold repr_agrees in Hrep. rewrite Hshort in Hrep.
      unfold inline_active in Hrep.
      destruct (data (getVal s)) as [cells|p] eqn:Hd; [discriminate Hrep|].
      rewrite (tidy_heap s p Hshort Hd). rewrite wrap_small by lia. reflexivity. }
  destruct (tidy_state s) as [al E]. rewrite E in *. cbn [fst snd getVal capacity] in *.
  split; [reflexivity|]. split; [|auto].
  apply well_formed_inline; [lia | |].
  - rewrite length_put_cell. exact Hlen.
  - apply (written_sentinel (fun l => l)); [lia|]. rewrite Hlen. lia.
Qed.

(** X11: destroying twice is destroying once: on the string a destructor has
    left, the destructor changes nothing and makes no allocator call. *)
Theorem X11_destroy_idempotent (s : basic_string) :
  destroy (snd (destroy s)) = (Ret tt, snd (destroy s)).
Proof.
  unfold destroy. destruct (tidy_state s) as [al ->]. cbn [snd].
  rewrite tidy_short by apply isShortString_inline.
  rewrite initEmpty_state. cbn [getAlloc getVal data buf_cells].
  rewrite put_cell_idempotent. reflexivity.
Qed.

(** X12: a string constructed from a pointer and then destroyed gives back
    what it took: the live blocks and the room of the allocator are those
    before the construction, and the trace gained nothing (count below
    [kBufferSize]) or one [allocate], the writer, and one [deallocate] of the
    same block with the same size. *)
Theorem X12_pointer_lifetime_balanced (str : list cell) (count : Z) (a : Alloc) :
  fresh_unused a ->
  0 <= count ->
  fst (new_ptr str count a) = Ret tt ->
  let d := getAlloc (snd (destroy (snd (new_ptr str count a)))) in
  let cap := first_capacity count in
  blocks d = blocks a
  /\ room d = room a
  /\ trace d
     = trace a
         ++ (if count <? kBufferSize then []
             else [Allocate (cap + 1) (Some (fresh a));
                   Written (HeapBlock (fresh a)) count;
                   Deallocate (HeapBlock (fresh a)) (cap + 1)]).
Proof.
  intros Hfresh Hc. cbv zeta. unfold destroy.
  change (new_ptr str count a) with (init_ptr str count (empty_string a)).
  pose proof kBufferSize_bounds as Hk.
  destruct (init_ptr_empty_cases str count a Hc)
    as [(Hlt & ->)|[(_ & ->)|[(_ & _ & ->)|(Hge & Hroom & ->)]]];
    try discriminate; intros _; cbn [snd].
  - rewrite tidy_short by apply isShortString_inline. rewrite initEmpty_state.
    cbn [snd getAlloc]. destruct (Z.ltb_spec count kBufferSize); [|lia].
    rewrite app_nil_r. auto.
  - pose proof (first_capacity_bounds count (proj2 Hge)).
    rewrite tidy_heap_string by lia. cbn [snd getAlloc blocks room trace].
    destruct (Z.ltb_spec count kBufferSize); [lia|].
    rewrite delete_id by exact Hfresh. auto.
Qed.

(** ** The fill constructor outside its defective range *)

(** The ways in which the fill primitive ends on the default-constructed
    record, whose capacity is 0. *)
Lemma init_fill_new_cases (count ch : Z) (a : Alloc) :
  (count <= 0
   /\ init_fill count ch (allocVal a)
      = (Ret tt,
         MkString a
           (MkStringValue count 0
              (Data_buf (put_cell count sentinel
                           (fill_cells count ch
                              (replicate (Z.to_nat kBufferSize) (Some sentinel))))))))
  \/ (0 < count /\ max_size <= count
      /\ init_fill count ch (allocVal a) = (Throw LengthError, allocVal a))
  \/ (0 < count < max_size
      /\ room a < first_capacity count + 1
      /\ init_fill count ch (allocVal a)
         = (Throw BadAlloc,
            MkString (MkAlloc (blocks a) (fresh a) (room a)
                        (trace a ++ [Allocate (first_capacity count + 1) None]))
                     StringValue_new))
  \/ (0 < count < max_size
      /\ first_capacity count + 1 <= room a
      /\ init_fill count ch (allocVal a)
         = (Ret tt, heap_string a count (first_capacity count)
                      (put_cell count sentinel ∘ fill_cells count ch))).
Proof.
  pose proof kBufferSize_bounds as Hk.
  destruct (Z.le_gt_cases count 0) as [Hle|Hgt].
  { left. split; [exact Hle|]. unfold init_fill.
    unfold bind at 1. unfold read at 1. cbn [allocVal getVal StringValue_new capacity].
    destruct (Z.leb_spec count 0); [|lia].
    unfold bind at 1. unfold read at 1.
    assert (Hp : getPtr (getVal (allocVal a)) = InlineBuf).
    { unfold getPtr, isShortString. cbn [allocVal getVal StringValue_new capacity].
      destruct (Z.ltb_spec 0 kBufferSize); [reflexivity | lia]. }
    rewrite Hp. reflexivity. }
  right. rewrite init_fill_heap by (cbn; lia).
  destruct (Z.le_gt_cases max_size count) as [Hmax|Hmax].
  { left. split; [exact Hgt|]. split; [exact Hmax|].
    apply reallocAndAssign_too_long. exact Hmax. }
  right.
  destruct (Z.lt_ge_cases (room a) (first_capacity count + 1)) as [Hroom|Hroom].
  - left. split; [lia|]. split; [exact Hroom|].
    apply (reallocAndAssign_first_refused count _ (allocVal a)); [reflexivity | lia | exact Hroom].
  - right. split; [lia|]. split; [exact Hroom|].
    apply (reallocAndAssign_first count _ _ (allocVal a));
      [intros; apply fill_writer_store | reflexivity | cbn; lia | lia | exact Hroom].
Qed.

(** X13: a constructor that throws leaks nothing: after a throw of the
    constructor from a pointer, from a terminated array, from a substring or
    by fill, the live blocks and the room of the allocator are those it was
    given. *)
Theorem X13_failed_construction_leaks_nothing (a : Alloc) (e : exn) :
  (forall str count,
     fst (new_ptr str count a) = Throw e ->
     blocks (getAlloc (snd (new_ptr str count a))) = blocks a
     /\ room (getAlloc (snd (new_ptr str count a))) = room a)
  /\ (forall str,
        fst (new_cstr str a) = Throw e ->
        blocks (getAlloc (snd (new_cstr str a))) = blocks a
        /\ room (getAlloc (snd (new_cstr str a))) = room a)
  /\ (forall rhs pos count,
        fst (new_substr rhs pos count a) = Throw e ->
        blocks (getAlloc (snd (new_substr rhs pos count a))) = blocks a
        /\ room (getAlloc (snd (new_substr rhs pos count a))) = room a)
  /\ (forall count ch,
        fst (new_fill count ch a) = Throw e ->
        blocks (getAlloc (snd (new_fill count ch a))) = blocks a
        /\ room (getAlloc (snd (new_fill count ch a))) = room a).
Proof.
  assert (Hptr : forall str count,
     fst (new_ptr str count a) = Throw e ->
     blocks (getAlloc (snd (new_ptr str count a))) = blocks a
     /\ room (getAlloc (snd (new_ptr str count a))) = room a).
  { intros str count He.
    change (new_ptr str count a) with (init_ptr str count (empty_string a)) in *.
    destruct (init_ptr_throw str count a e He) as (_ & H1 & H2 & _). auto. }
  split; [exact Hptr|]. split; [intros str; apply Hptr|]. split.
  - intros rhs pos count.
    change (new_substr rhs pos count a) with (init_substr rhs pos count (empty_string a)).
    destruct (Z.le_gt_cases pos (size (getVal rhs))) as [Hle|Hgt].
    + rewrite init_substr_in_range by exact Hle. intros He.
      destruct (init_ptr_throw _ _ a e He) as (_ & H1 & H2 & _). auto.
    + rewrite init_substr_out_of_range by exact Hgt. intros _. auto.
  - intros count ch. unfold new_fill.
    destruct (init_fill_new_cases count ch a)
      as [(_ & ->)|[(_ & _ & ->)|[(_ & _ & ->)|(_ & _ & ->)]]];
      try discriminate; intros _; auto.
Qed.

(** X17: fill construction with a count of at least [kBufferSize] that
    returns leaves [count] copies of [ch], the capacity
    [count | kBufferMask] (or [max_size()] if smaller) and the invariants of
    the storage record; with the count 0 it always returns, makes no
    allocator call and leaves an empty string with the invariants. *)
Theorem X17_fill_outside_short_range (count ch : Z) (a : Alloc) :
  (kBufferSize <= count ->
   fst (new_fill count ch a) = Ret tt ->
   well_formed (snd (new_fill count ch a))
   /\ size (getVal (snd (new_fill count ch a))) = count
   /\ capacity (getVal (snd (new_fill count ch a))) = first_capacity count
   /\ chars (snd (new_fill count ch a)) = replicate (Z.to_nat count) (Some ch))
  /\ fst (new_fill 0 ch a) = Ret tt
  /\ getAlloc (snd (new_fill 0 ch a)) = a
  /\ well_formed (snd (new_fill 0 ch a))
  /\ chars (snd (new_fill 0 ch a)) = [].
Proof.
  pose proof kBufferSize_bounds as Hk. pose proof max_size_bounds as Hm.
  split.
  - intros Hc. unfold new_fill.
    destruct (init_fill_new_cases count ch a)
      as [(? & _)|[(_ & _ & ->)|[(_ & _ & ->)|(Hlt & Hroom & ->)]]];
      try lia; try discriminate; intros _; cbn [snd].
    pose proof (first_capacity_bounds count (proj2 Hlt)).
    split; [apply well_formed_heap_string; [lia | lia | lia | apply length_fill_cells]|].
    split; [reflexivity|]. split; [reflexivity|].
    unfold chars. rewrite buffer_heap_string by lia.
    unfold heap_string, compose. cbn [getVal size].
    apply filled_prefix; [lia|]. rewrite length_replicate. lia.
  - unfold new_fill.
    destruct (init_fill_new_cases 0 ch a) as [(_ & ->)|[(? & _)|[(? & _)|(? & _)]]];
      try lia.
    cbn [fst snd getAlloc]. split; [reflexivity|]. split; [reflexivity|].
    split; [|reflexivity].
    unfold well_formed, repr_agrees, buffer, getPtr, isShortString, inline_active,
      owns_storage.
    cbn [getVal size capacity data buf_cells load].
    destruct (Z.ltb_spec 0 kBufferSize); [|lia].
    cbn [load getVal data buf_cells].
    rewrite length_put_cell, length_fill_cells, length_replicate.
    repeat split; try lia; auto.
    apply written_sentinel; [lia|]. rewrite length_fill_cells, length_replicate. lia.
Qed.

(** ** Substrings, terminated arrays and pointer ranges *)

(** X14: substring construction throws the range error exactly when
    [pos > rhs.size()], and then its allocator is the one passed in; when it
    returns, the size of the result is [min(count, rhs.size() - pos)], which
    for the constructor without a count is [rhs.size() - pos]. *)
Theorem X14_substring_range_check (rhs : basic_string) (pos count : Z) (a : Alloc) :
  0 <= pos ->
  size (getVal rhs) < size_type_modulus ->
  (fst (new_substr rhs pos count a) = Throw OutOfRange <-> size (getVal rhs) < pos)
  /\ (size (getVal rhs) < pos -> snd (new_substr rhs pos count a) = empty_string a)
  /\ (fst (new_substr rhs pos count a) = Ret tt ->
      size (getVal (snd (new_substr rhs pos count a)))
      = Z.min count (size (getVal rhs) - pos))
  /\ (fst (new_suffix rhs pos a) = Ret tt ->
      size (getVal (snd (new_suffix rhs pos a))) = size (getVal rhs) - pos).
Proof.
  intros Hpos Hsz.
  assert (Hsome : forall n,
    fst (new_substr rhs pos n a) = Ret tt ->
    pos <= size (getVal rhs)
    /\ size (getVal (snd (new_substr rhs pos n a))) = Z.min n (size (getVal rhs) - pos)).
  { intros n.
    change (new_substr rhs pos n a) with (init_substr rhs pos n (empty_string a)).
    destruct (Z.le_gt_cases pos (size (getVal rhs))) as [Hle|Hgt].
    - rewrite init_substr_in_range by exact Hle. rewrite wrap_small by lia.
      intros Hret. split; [exact Hle|].
      destruct (init_ptr_after_initEmpty _ _ (empty_string a) eq_refl eq_refl Hret)
        as (_ & H & _). exact H.
    - rewrite init_substr_out_of_range by exact Hgt. discriminate. }
  change (new_substr rhs pos count a) with (init_substr rhs pos count (empty_string a)).
  split; [split|split; [|split]].
  - intros He. destruct (Z.le_gt_cases pos (size (getVal rhs))) as [Hle|Hgt]; [|exact Hgt].
    exfalso. rewrite init_substr_in_range in He by exact Hle.
    destruct (init_ptr_throw _ _ a OutOfRange He) as ([?|?] & _); discriminate.
  - intros Hgt. rewrite init_substr_out_of_range by exact Hgt. reflexivity.
  - intros Hgt. rewrite init_substr_out_of_range by exact Hgt. reflexivity.
  - intros Hret. apply (Hsome count Hret).
  - unfold new_suffix. intros Hret. destruct (Hsome npos Hret) as (Hle & ->).
    change npos with 18446744073709551615. unfold size_type_modulus in Hsz. lia.
Qed.


(** X16: construction from a pair of pointers into one array.  For
    [first <= last] within the array a constructor that returns leaves the
    cells from [first] up to [last]; for [first == last] it returns without
    touching the allocator.  For [last < first] the difference converted to
    [size_type] is at least [max_size()], so the constructor throws the length
    error before any allocator call. *)
Theorem X16_pointer_range (arr : list cell) (first last : Z) (a : Alloc) :
  (0 <= first <= last ->
   last <= Z.of_nat (length arr) ->
   last - first < size_type_modulus ->
   fst (new_range arr first last a) = Ret tt ->
   size (getVal (snd (new_range arr first last a))) = last - first
   /\ chars (snd (new_range arr first last a))
      = take (Z.to_nat (last - first)) (drop (Z.to_nat first) arr))
  /\ (first = last -> new_range arr first last a = (Ret tt, empty_string a))
  /\ (last < first ->
      first - last <= ptrdiff_max + 1 ->
      new_range arr first last a = (Throw LengthError, empty_string a)).
Proof.
  pose proof max_size_bounds as Hm. pose proof kBufferSize_bounds as Hk.
  assert (Hunfold : new_range arr first last a
                    = constructRange arr first last (empty_string a)) by reflexivity.
  rewrite Hunfold. unfold constructRange.
  split; [|split].
  - intros Hf Hl Hd.
    destruct (Z.eqb_spec first last) as [->|Hne].
    + intros _. cbn [ret snd]. rewrite Z.sub_diag. split; [reflexivity|].
      rewrite empty_string_state, chars_inline. reflexivity.
    + rewrite wrap_small by lia. intros Hret.
      assert (H0 : 0 <= last - first) by lia.
      destruct (init_ptr_empty_well_formed _ _ a H0 Hret) as (_ & Hsz).
      split; [exact Hsz|].
      apply init_ptr_empty_chars; [|exact Hret].
      rewrite length_drop. lia.
  - intros ->. rewrite Z.eqb_refl. reflexivity.
  - intros Hlt Hd. destruct (Z.eqb_spec first last) as [->|Hne]; [lia|].
    assert (Hw : wrap (last - first) = last - first + size_type_modulus).
    { unfold wrap.
      rewrite <- (Z.mod_add (last - first) 1) by (unfold size_type_modulus; lia).
      rewrite Z.mul_1_l. apply Z.mod_small.
      unfold ptrdiff_max, size_type_modulus in *. lia. }
    rewrite init_ptr_heap
      by (rewrite empty_string_state, Hw; cbn;
          unfold ptrdiff_max, size_type_modulus in *; lia).
    apply reallocAndAssign_too_long. rewrite Hw.
    unfold ptrdiff_max, size_type_modulus in *. lia.
Qed.

(** ** Reallocation *)

(** X18: whatever the string, when [reallocAndAssign] returns, the size is
    the requested one, it is within the new capacity, the capacity is within
    [max_size()], and the block whose address is stored was obtained by an
    [allocate] call for [capacity + 1] elements. *)
Theorem X18_realloc_reserves_capacity_plus_one (newSize : Z)
    (func : pointer -> Z -> M unit) (s : basic_string) :
  raw_writer func ->
  0 <= size (getVal s) <= max_size ->
  0 <= newSize ->
  fst (reallocAndAssign newSize func s) = Ret tt ->
  let v := getVal (snd (reallocAndAssign newSize func s)) in
  size v = newSize
  /\ newSize <= capacity v <= max_size
  /\ exists p,
       data v = Data_ptr (HeapBlock p)
       /\ Allocate (capacity v + 1) (Some p)
            ∈ trace (getAlloc (snd (reallocAndAssign newSize func s))).
Proof.
  intros Hw Hs Hn Hret. cbv zeta. pose proof max_size_lt_modulus as Hm.
  destruct (Z.le_gt_cases max_size newSize) as [Hge|Hlt].
  { rewrite reallocAndAssign_too_long in Hret by exact Hge. discriminate Hret. }
  destruct (capacityGrowth_covers newSize s Hs Hlt) as (r & Hr & Hrk & Hmax).
  destruct (Z.le_gt_cases (wrap (r + 1)) (room (getAlloc s))) as [Hroom|Hroom].
  2:{ rewrite (reallocAndAssign_bad_alloc newSize r func s Hlt Hr Hroom) in Hret.
      discriminate Hret. }
  destruct (reallocAndAssign_returns newSize r func s Hw Hlt Hr Hroom) as [f ->].
  unfold after_realloc, before_writer.
  cbn [snd getVal getAlloc size capacity data blocks fresh room trace].
  split; [reflexivity|]. split; [lia|].
  exists (fresh (getAlloc s)). split; [reflexivity|].
  assert (Hin : Allocate (r + 1) (Some (fresh (getAlloc s)))
                ∈ (trace (getAlloc s) ++ [Allocate (wrap (r + 1)) (Some (fresh (getAlloc s)))])
                   ++ [Written (HeapBlock (fresh (getAlloc s))) newSize]).
  { rewrite wrap_small by lia. rewrite !elem_of_app, !list_elem_of_singleton. auto. }
  destruct (kBufferSize <=? capacity (getVal s)); [|exact Hin].
  unfold deallocate. cbn [snd getAlloc trace].
  rewrite elem_of_app. left. exact Hin.
Qed.

End Construction.

(** ** The further properties at concrete inputs *)

Ltac by_computation :=
  vm_compute; repeat split; try reflexivity; try discriminate;
  try (eexists; reflexivity).

(** Three cursors in a row. *)
Lemma X3_comparisons_total_order_witness :
  Iter.Const.lt (Iter.ConstIt 1) (Iter.ConstIt 2) = true
  /\ Iter.Const.lt (Iter.ConstIt 2) (Iter.ConstIt 3) = true
  /\ Iter.Const.lt (Iter.ConstIt 1) (Iter.ConstIt 3) = true.
Proof.
  assert (H1 : Iter.Const.lt (Iter.ConstIt 1) (Iter.ConstIt 2) = true) by reflexivity.
  assert (H2 : Iter.Const.lt (Iter.ConstIt 2) (Iter.ConstIt 3) = true) by reflexivity.
  destruct (X3_comparisons_total_order (Iter.ConstIt 1) (Iter.ConstIt 2) (Iter.ConstIt 3))
    as (_ & _ & _ & Htrans & _).
  exact (conj H1 (conj H2 (Htrans H1 H2))).
Defined.


(** Five characters on an allocator that has no room at all. *)
Lemma X7_pointer_short_no_allocation_witness :
  0 <= 5 < kBufferSize (C:=char)
  /\ fst (new_ptr (C:=char) (text "aaaaa") 5 (fresh_alloc 0)) = Ret tt
  /\ getAlloc (snd (new_ptr (C:=char) (text "aaaaa") 5 (fresh_alloc 0))) = fresh_alloc 0
  /\ size (getVal (snd (new_ptr (C:=char) (text "aaaaa") 5 (fresh_alloc 0)))) = 5
  /\ capacity (getVal (snd (new_ptr (C:=char) (text "aaaaa") 5 (fresh_alloc 0))))
     = kBufferSize (C:=char) - 1.
Proof.
  assert (H1 : 0 <= 5 < kBufferSize (C:=char)) by by_computation.
  exact (conj H1
           (X7_pointer_short_no_allocation (C:=char) (text "aaaaa") 5 (fresh_alloc 0) H1)).
Defined.

(** Twenty characters, with room for them and without. *)
Lemma X8_pointer_long_one_allocation_witness :
  kBufferSize (C:=char) <= 20 < max_size (C:=char)
  /\ first_capacity (C:=char) 20 = 31
  /\ fst (new_ptr (C:=char) (replicate 20 (Some 97)) 20 (fresh_alloc 1000)) = Ret tt
  /\ fst (new_ptr (C:=char) (replicate 20 (Some 97)) 20 (fresh_alloc 5)) = Throw BadAlloc.
Proof.
  assert (H1 : kBufferSize (C:=char) <= 20 < max_size (C:=char)) by by_computation.
  destruct (X8_pointer_long_one_allocation (C:=char) (replicate 20 (Some 97)) 20
              (fresh_alloc 1000) H1) as (_ & Hcap & Hok & _).
  destruct (X8_pointer_long_one_allocation (C:=char) (replicate 20 (Some 97)) 20
              (fresh_alloc 5) H1) as (_ & _ & _ & Hbad).
  split; [exact H1|]. split; [apply Hcap; by_computation|].
  split; [apply Hok; by_computation | apply Hbad; by_computation].
Defined.


(** The destructor of the 20-character heap string. *)
Lemma X10_destroy_resets_witness :
  well_formed (C:=char) twenty_a
  /\ fst (destroy (C:=char) twenty_a) = Ret tt
  /\ well_formed (C:=char) (snd (destroy (C:=char) twenty_a))
  /\ Str.empty (snd (destroy (C:=char) twenty_a)) = true
  /\ capacity (getVal (snd (destroy (C:=char) twenty_a))) = kBufferSize (C:=char) - 1
  /\ trace (getAlloc (snd (destroy (C:=char) twenty_a)))
     = trace (getAlloc twenty_a)
         ++ (if isShortString (C:=char) (getVal twenty_a) then []
             else [Deallocate (data_ptr (data (getVal twenty_a)))
                              (capacity (getVal twenty_a) + 1)]).
Proof.
  assert (H1 : well_formed (C:=char) twenty_a) by by_computation.
  exact (conj H1 (X10_destroy_resets (C:=char) twenty_a H1)).
Defined.

(** Twenty characters constructed and destroyed. *)
Lemma X12_pointer_lifetime_balanced_witness :
  fresh_unused (fresh_alloc 1000)
  /\ 0 <= 20
  /\ fst (new_ptr (C:=char) (replicate 20 (Some 97)) 20 (fresh_alloc 1000)) = Ret tt
  /\ blocks (getAlloc (snd (destroy (C:=char)
               (snd (new_ptr (C:=char) (replicate 20 (Some 97)) 20 (fresh_alloc 1000))))))
     = blocks (fresh_alloc 1000)
  /\ room (getAlloc (snd (destroy (C:=char)
               (snd (new_ptr (C:=char) (replicate 20 (Some 97)) 20 (fresh_alloc 1000))))))
     = room (fresh_alloc 1000).
Proof.
  assert (H1 : fresh_unused (fresh_alloc 1000)) by by_computation.
  assert (H2 : 0 <= 20) by by_computation.
  assert (H3 : fst (new_ptr (C:=char) (replicate 20 (Some 97)) 20 (fresh_alloc 1000))
               = Ret tt) by by_computation.
  destruct (X12_pointer_lifetime_balanced (C:=char) (replicate 20 (Some 97)) 20
              (fresh_alloc 1000) H1 H2 H3) as (Hb & Hr & _).
  exact (conj H1 (conj H2 (conj H3 (conj Hb Hr)))).
Defined.

(** Twenty characters on an allocator with room for five. *)
Lemma X13_failed_construction_leaks_nothing_witness :
  fst (new_ptr (C:=char) (replicate 20 (Some 97)) 20 (fresh_alloc 5)) = Throw BadAlloc
  /\ blocks (getAlloc (snd (new_ptr (C:=char) (replicate 20 (Some 97)) 20 (fresh_alloc 5))))
     = blocks (fresh_alloc 5)
  /\ room (getAlloc (snd (new_ptr (C:=char) (replicate 20 (Some 97)) 20 (fresh_alloc 5))))
     = room (fresh_alloc 5).
Proof.
  assert (H1 : fst (new_ptr (C:=char) (replicate 20 (Some 97)) 20 (fresh_alloc 5))
               = Throw BadAlloc) by by_computation.
  destruct (X13_failed_construction_leaks_nothing (C:=char) (fresh_alloc 5) BadAlloc)
    as (Hptr & _).
  exact (conj H1 (Hptr (replicate 20 (Some 97)) 20 H1)).
Defined.

(** Five characters of ["hello world"] from position 6, and its suffix from
    position 6. *)
Lemma X14_substring_range_check_witness :
  0 <= 6
  /\ size (getVal hello_world) < size_type_modulus
  /\ size (getVal (snd (new_substr (C:=char) hello_world 6 3 (fresh_alloc 1000))))
     = Z.min 3 (size (getVal hello_world) - 6)
  /\ size (getVal (snd (new_suffix (C:=char) hello_world 6 (fresh_alloc 1000))))
     = size (getVal hello_world) - 6.
Proof.
  assert (H1 : 0 <= 6) by by_computation.
  assert (H2 : size (getVal hello_world) < size_type_modulus) by by_computation.
  destruct (X14_substring_range_check (C:=char) hello_world 6 3 (fresh_alloc 1000) H1 H2)
    as (_ & _ & Hsz & Hsuf).
  split; [exact H1|]. split; [exact H2|].
  split; [apply Hsz; by_computation | apply Hsuf; by_computation].
Defined.


(** The range of ["world"] inside ["hello world"], and a reversed range. *)
Lemma X16_pointer_range_witness :
  chars (C:=char) (snd (new_range (C:=char) (text "hello world") 6 11 (fresh_alloc 1000)))
  = take (Z.to_nat (11 - 6)) (drop (Z.to_nat 6) (text "hello world"))
  /\ new_range (C:=char) (text "hello world") 3 1 (fresh_alloc 1000)
     = (Throw LengthError, empty_string (C:=char) (fresh_alloc 1000)).
Proof.
  destruct (X16_pointer_range (C:=char) (text "hello world") 6 11 (fresh_alloc 1000))
    as (Hok & _).
  destruct (X16_pointer_range (C:=char) (text "hello world") 3 1 (fresh_alloc 1000))
    as (_ & _ & Hrev).
  split.
  - apply Hok; by_computation.
  - apply Hrev; by_computation.
Defined.

(** Twenty copies of ['a']. *)
Lemma X17_fill_outside_short_range_witness :
  kBufferSize (C:=char) <= 20
  /\ fst (new_fill (C:=char) 20 97 (fresh_alloc 1000)) = Ret tt
  /\ chars (C:=char) (snd (new_fill (C:=char) 20 97 (fresh_alloc 1000)))
     = replicate (Z.to_nat 20) (Some 97)
  /\ well_formed (C:=char) (snd (new_fill (C:=char) 20 97 (fresh_alloc 1000))).
Proof.
  assert (H1 : kBufferSize (C:=char) <= 20) by by_computation.
  assert (H2 : fst (new_fill (C:=char) 20 97 (fresh_alloc 1000)) = Ret tt)
    by by_computation.
  destruct (X17_fill_outside_short_range (C:=char) 20 97 (fresh_alloc 1000)) as (Hlong & _).
  destruct (Hlong H1 H2) as (Hwf & _ & _ & Hc).
  exact (conj H1 (conj H2 (conj Hc Hwf))).
Defined.

(** The 20-character heap string grown to 40 characters. *)
Lemma X18_realloc_reserves_capacity_plus_one_witness :
  raw_writer (C:=char) (fill_writer (C:=char) 98)
  /\ 0 <= size (getVal twenty_a) <= max_size (C:=char)
  /\ 0 <= 40
  /\ fst (reallocAndAssign (C:=char) 40 (fill_writer (C:=char) 98) twenty_a) = Ret tt
  /\ size (getVal (snd (reallocAndAssign (C:=char) 40 (fill_writer (C:=char) 98) twenty_a)))
     = 40
  /\ 40 <= capacity
             (getVal (snd (reallocAndAssign (C:=char) 40 (fill_writer (C:=char) 98) twenty_a)))
        <= max_size (C:=char).
Proof.
  assert (H1 : raw_writer (C:=char) (fill_writer (C:=char) 98)) by apply fill_writer_raw.
  assert (H2 : 0 <= size (getVal twenty_a) <= max_size (C:=char)) by by_computation.
  assert (H3 : 0 <= 40) by by_computation.
  assert (H4 : fst (reallocAndAssign (C:=char) 40 (fill_writer (C:=char) 98) twenty_a)
               = Ret tt) by by_computation.
  destruct (X18_realloc_reserves_capacity_plus_one (C:=char) 40 (fill_writer (C:=char) 98)
              twenty_a H1 H2 H3 H4) as (Hs & Hc & _).
  exact (conj H1 (conj H2 (conj H3 (conj H4 (conj Hs Hc))))).
Defined.
